(** * sqlalchemy_history.builder: shadow-schema derivation

    A shallow embedding of [src/sqlalchemy_history/builder.py] and the
    properties of its table derivation, closest-table resolution,
    reentrancy guard and configuration pass.

    Classes are identified by natural numbers.  [manager.tables] and
    [manager.version_class_map] are Python dicts: they iterate in insertion
    order and [build_tables] breaks on the first matching key, so they are
    association lists whose update keeps the position of an existing key and
    appends a new one.  Calls into collaborators that live outside
    builder.py (TableBuilder, ModelBuilder, RelationshipBuilder, the plugin
    hooks) are recorded, in order, in a trace. *)

From Stdlib Require Import List String Bool Arith Lia Permutation.
Import ListNotations.
Open Scope list_scope.
Open Scope bool_scope.

(** ** Classes, tables and ordered dictionaries *)

Definition cls := nat.
Definition Table := nat.
Definition Base := nat.

Definition dict (V : Type) := list (cls * V).

Definition dict_keys {V} (d : dict V) : list cls := map fst d.

Fixpoint dict_get {V} (k : cls) (d : dict V) : option V :=
  match d with
  | [] => None
  | (k', v) :: d' => if Nat.eqb k k' then Some v else dict_get k d'
  end.

Definition dict_mem {V} (k : cls) (d : dict V) : bool :=
  existsb (Nat.eqb k) (dict_keys d).

(** [d[k] = v]: an existing key keeps its place, a new key goes last. *)
Fixpoint dict_set {V} (k : cls) (v : V) (d : dict V) : dict V :=
  match d with
  | [] => [(k, v)]
  | (k', v') :: d' =>
      if Nat.eqb k k' then (k', v) :: d' else (k', v') :: dict_set k v d'
  end.

Definition mem (c : cls) (l : list cls) : bool := existsb (Nat.eqb c) l.

(** ** Results, errors and the trace *)

Inductive Error :=
| ConfigurationError
| PluginError
| AttributeError
| ClassNotVersioned.

(** A mapped property of a class: its key, whether it is a
    ConcreteInheritedProperty, and whether [getattr(cls, key).impl] can be
    reached (the class has an instrumented attribute of that name). *)
Record MappedProperty := mkProp {
  key : string;
  concrete_inherited : bool;
  instrumented : bool
}.

Inductive Event :=
| TableBuilderCall (model : cls) (inherited_from : option cls)
| TransactionModelConstructed (base : Base)
| AfterBuildTxClass
| ModelBuilderCall (model : cls)
| AfterVersionClassBuilt (model : cls)
| AfterBuildModels
| RelationshipBuilderCall (model : cls) (prop_key : string)
| ActiveHistorySet (model : cls) (prop_key : string)
| ColumnAliasAdded (model : cls) (alias : string)
| AssociationProxyAdded (model : cls) (name : string)
| HybridPropertyAdded (model : cls) (name : string).

(** What a plugin hook does besides being notified: nothing, call
    [configure_versioned_classes] again, or raise. *)
Inductive HookBehaviour := Quiet | Reenters | Fails.

Record TransactionClass := mkTx { tx_base : Base }.

Section Builder.

Context {ShadowTable : Type}.

Record VersionClass := mkVersionClass {
  vc_model : cls;
  vc_table : ShadowTable;
  vc_transaction : option TransactionClass
}.

(** The class graph, the per-class options and the collaborators. *)
Record Env := mkEnv {
  mro_tail : cls -> list cls;
  table_of : cls -> Table;
  option_versioning : cls -> bool;
  option_create_tables : cls -> bool;
  TableBuilder : cls -> option ShadowTable -> option ShadowTable;
  shadow_has_column : ShadowTable -> string -> bool;
  get_declarative_base : cls -> option Base;
  iterate_properties : cls -> list MappedProperty;
  relationship_target : cls -> string -> option cls;
  columns : cls -> list (string * string);
  get_association_proxies : cls -> list string;
  get_hybrid_properties : cls -> list string;
  after_version_class_built : cls -> HookBehaviour;
  after_build_models : HookBehaviour;
  after_build_tx_class : HookBehaviour
}.

(** The manager's mutable state, with the guard's closure cell. *)
Record State := mkState {
  in_handler : bool;
  options_versioning : bool;
  options_create_models : bool;
  pending_classes : list cls;
  tables : dict ShadowTable;
  version_class_map : dict VersionClass;
  transaction_cls : option TransactionClass;
  declarative_base : option Base;
  relationships : list (cls * string * cls);
  trace : list Event
}.

Definition set_in_handler (b : bool) (s : State) : State :=
  mkState b (options_versioning s) (options_create_models s)
    (pending_classes s) (tables s) (version_class_map s) (transaction_cls s)
    (declarative_base s) (relationships s) (trace s).

Definition set_pending_classes (p : list cls) (s : State) : State :=
  mkState (in_handler s) (options_versioning s) (options_create_models s)
    p (tables s) (version_class_map s) (transaction_cls s)
    (declarative_base s) (relationships s) (trace s).

Definition set_tables (t : dict ShadowTable) (s : State) : State :=
  mkState (in_handler s) (options_versioning s) (options_create_models s)
    (pending_classes s) t (version_class_map s) (transaction_cls s)
    (declarative_base s) (relationships s) (trace s).

Definition set_version_class_map (m : dict VersionClass) (s : State) : State :=
  mkState (in_handler s) (options_versioning s) (options_create_models s)
    (pending_classes s) (tables s) m (transaction_cls s)
    (declarative_base s) (relationships s) (trace s).

Definition set_transaction_cls (t : option TransactionClass) (s : State) : State :=
  mkState (in_handler s) (options_versioning s) (options_create_models s)
    (pending_classes s) (tables s) (version_class_map s) t
    (declarative_base s) (relationships s) (trace s).

Definition set_declarative_base (b : option Base) (s : State) : State :=
  mkState (in_handler s) (options_versioning s) (options_create_models s)
    (pending_classes s) (tables s) (version_class_map s) (transaction_cls s)
    b (relationships s) (trace s).

Definition set_relationships (r : list (cls * string * cls)) (s : State) : State :=
  mkState (in_handler s) (options_versioning s) (options_create_models s)
    (pending_classes s) (tables s) (version_class_map s) (transaction_cls s)
    (declarative_base s) r (trace s).

Definition set_trace (t : list Event) (s : State) : State :=
  mkState (in_handler s) (options_versioning s) (options_create_models s)
    (pending_classes s) (tables s) (version_class_map s) (transaction_cls s)
    (declarative_base s) (relationships s) t.

(** A call either returns, or raises leaving the state as mutated so far;
    [OutOfFuel] only bounds the recursion through the hooks. *)
Inductive Outcome (A : Type) :=
| Return (a : A) (s : State)
| Raised (e : Error) (s : State)
| OutOfFuel.
Arguments Return {A} a s.
Arguments Raised {A} e s.
Arguments OutOfFuel {A}.

Definition M (A : Type) := State -> Outcome A.

Definition ret {A} (a : A) : M A := fun s => Return a s.

Definition bind {A B} (m : M A) (k : A -> M B) : M B :=
  fun s =>
    match m s with
    | Return a s' => k a s'
    | Raised e s' => Raised e s'
    | OutOfFuel => OutOfFuel
    end.

Definition raise {A} (e : Error) : M A := fun s => Raised e s.
Definition gets {A} (f : State -> A) : M A := fun s => Return (f s) s.
Definition modify (f : State -> State) : M unit := fun s => Return tt (f s).
Definition log (e : Event) : M unit :=
  modify (fun s => set_trace (trace s ++ [e]) s).

Notation "x <- c1 ;; c2" := (bind c1 (fun x => c2))
  (at level 61, c1 at next level, right associativity).
Notation "c1 ;; c2" := (bind c1 (fun _ => c2))
  (at level 61, right associativity).

(** [for x in l: body(x)] *)
Fixpoint for_each {A} (l : list A) (body : A -> M unit) : M unit :=
  match l with
  | [] => ret tt
  | x :: l' => body x ;; for_each l' body
  end.

(** ** prevent_reentry *)

Definition prevent_reentry (handler : M unit) : M unit :=
  fun s =>
    if in_handler s then Return tt s
    else
      match handler (set_in_handler true s) with
      | Return _ s' => Return tt (set_in_handler false s')
      | Raised e s' => Raised e s'
      | OutOfFuel => OutOfFuel
      end.

Variable E : Env.

(** ** Class graph: [getmro] and [issubclass] *)

Definition getmro (c : cls) : list cls := c :: mro_tail E c.

Definition issubclass (c d : cls) : bool := mem d (getmro c).

(** ** Builder.closest_matching_table *)

Definition closest_matching_table (tabs : dict ShadowTable) (model : cls)
  : option ShadowTable :=
  if dict_mem model tabs then dict_get model tabs
  else
    let subclasses := filter (fun c => issubclass model c) (dict_keys tabs) in
    let ordered_subclasses := filter (fun c => mem c subclasses) (getmro model) in
    match ordered_subclasses with
    | c :: _ => dict_get c tabs
    | [] => None
    end.

(** The resolver without its first two lines (the exact-match lookup). *)
Definition closest_matching_table_scan_only (tabs : dict ShadowTable) (model : cls)
  : option ShadowTable :=
  let subclasses := filter (fun c => issubclass model c) (dict_keys tabs) in
  let ordered_subclasses := filter (fun c => mem c subclasses) (getmro model) in
  match ordered_subclasses with
  | c :: _ => dict_get c tabs
  | [] => None
  end.

(** ** Builder.build_tables *)

(** The inner loop: the first key [class_] of [manager.tables] with
    [issubclass(cls, class_) and cls.__table__ == class_.__table__],
    together with [manager.tables[class_]]. *)
Definition find_inherited (tabs : dict ShadowTable) (c : cls)
  : option (cls * ShadowTable) :=
  find (fun kv => issubclass c (fst kv)
                  && Nat.eqb (table_of E c) (table_of E (fst kv))) tabs.

Definition call_TableBuilder (c : cls) (from : option cls)
    (inherited_table : option ShadowTable) : M ShadowTable :=
  log (TableBuilderCall c from) ;;
  match TableBuilder E c inherited_table with
  | Some t => ret t
  | None => raise ConfigurationError
  end.

Definition build_table_for (c : cls) : M unit :=
  if negb (option_versioning E c) then ret tt
  else if option_create_tables E c then
    tabs <- gets tables ;;
    match find_inherited tabs c with
    | Some (class_, inherited_table) =>
        t <- call_TableBuilder c (Some class_) (Some inherited_table) ;;
        modify (fun s => set_tables (dict_set class_ t (tables s)) s)
    | None =>
        table <- call_TableBuilder c None None ;;
        modify (fun s => set_tables (dict_set c table (tables s)) s)
    end
  else ret tt.

Definition build_tables : M unit :=
  pending <- gets pending_classes ;;
  for_each pending build_table_for.

(** ** Collaborators that builder.py calls *)

(** Modelled from the spec: [ModelBuilder(manager, cls)(table, transaction_cls)]
    is defined in model_builder.py.  Per section 4.3 it constructs the shadow
    type over the table, bound to the transaction entity and linked back to
    the original, and registers it in the type map before returning. *)
Definition ModelBuilder (c : cls) (table : ShadowTable) : M VersionClass :=
  log (ModelBuilderCall c) ;;
  tx <- gets transaction_cls ;;
  let version_cls := mkVersionClass c table tx in
  modify (fun s => set_version_class_map
                     (dict_set c version_cls (version_class_map s)) s) ;;
  ret version_cls.

(** Modelled from the spec: [RelationshipBuilder(manager, cls, prop)()] is
    defined in relationship_builder.py.  Per section 4.5 it resolves the
    target of the original relationship to the target's shadow type through
    the type map, silently skips a target with no shadow, and otherwise
    attaches the mirrored relationship. *)
Definition RelationshipBuilder (c : cls) (prop : MappedProperty) : M unit :=
  log (RelationshipBuilderCall c (key prop)) ;;
  match relationship_target E c (key prop) with
  | Some target =>
      vmap <- gets version_class_map ;;
      if dict_mem target vmap
      then modify (fun s => set_relationships
                              (relationships s ++ [(c, key prop, target)]) s)
      else ret tt
  | None => ret tt
  end.

(** Modelled from the spec: [manager.create_transaction_model()] is defined
    in the manager module.  Per sections 3 and 4.4 the Transaction entity is
    constructed once, from the declarative base in force, and an existing one
    is kept. *)
Definition create_transaction_model : M unit :=
  tx <- gets transaction_cls ;;
  match tx with
  | Some _ => ret tt
  | None =>
      base <- gets declarative_base ;;
      match base with
      | Some b =>
          log (TransactionModelConstructed b) ;;
          modify (set_transaction_cls (Some (mkTx b)))
      | None => raise ConfigurationError
      end
  end.

Section Pass.

(** The entry point as the hooks see it. *)
Variable reenter : M unit.

Definition run_hook (notification : Event) (b : HookBehaviour) : M unit :=
  log notification ;;
  match b with
  | Quiet => ret tt
  | Reenters => reenter
  | Fails => raise PluginError
  end.

(** ** Builder.build_models *)

Definition build_model_for (c : cls) : M unit :=
  if negb (option_versioning E c) then ret tt
  else
    tabs <- gets tables ;;
    match closest_matching_table tabs c with
    | Some table =>
        _ <- ModelBuilder c table ;;
        run_hook (AfterVersionClassBuilt c) (after_version_class_built E c)
    | None => ret tt
    end.

Definition build_models : M unit :=
  pending <- gets pending_classes ;;
  match pending with
  | [] => ret tt
  | _ :: _ =>
      for_each pending build_model_for ;;
      run_hook AfterBuildModels (after_build_models E)
  end.

(** ** Builder.build_relationships *)

Definition build_relationships_for (c : cls) : M unit :=
  if negb (option_versioning E c) then ret tt
  else
    for_each (iterate_properties E c) (fun prop =>
      if String.eqb (key prop) "versions" then ret tt
      else RelationshipBuilder c prop).

Definition build_relationships (version_classes : list cls) : M unit :=
  for_each version_classes build_relationships_for.

(** ** Builder.build_transaction_class *)

Definition build_transaction_class : M unit :=
  pending <- gets pending_classes ;;
  match pending with
  | [] => ret tt
  | c :: _ =>
      match get_declarative_base E c with
      | Some b =>
          modify (set_declarative_base (Some b)) ;;
          create_transaction_model ;;
          run_hook AfterBuildTxClass (after_build_tx_class E)
      | None => raise ConfigurationError
      end
  end.

(** ** The finishing passes *)

Definition enable_active_history (version_classes : list cls) : M unit :=
  for_each version_classes (fun c =>
    for_each (iterate_properties E c) (fun prop =>
      if concrete_inherited prop then ret tt
      else if instrumented prop
           then log (ActiveHistorySet c (key prop))
           else raise AttributeError)).

Definition create_column_aliases (version_classes : list cls) : M unit :=
  for_each version_classes (fun c =>
    vmap <- gets version_class_map ;;
    match dict_get c vmap with
    | None => ret tt
    | Some version_class =>
        for_each (columns E c) (fun kc =>
          if negb (String.eqb (fst kc) (snd kc)) then
            if shadow_has_column E (vc_table version_class) (snd kc)
            then log (ColumnAliasAdded c (fst kc))
            else ret tt
          else ret tt)
    end).

(** Modelled from the spec: [version_class(cls)] is defined in
    sqlalchemy_history.utils.  Per section 4.3 collaborators ask the
    registry for the shadow type of an original, and the answer is read from
    the type map.  The spec is silent on an original that has no shadow
    type; the library raises ClassNotVersioned there, and so does the
    model. *)
Definition version_class (c : cls) : M VersionClass :=
  vmap <- gets version_class_map ;;
  match dict_get c vmap with
  | Some versioned_target_class => ret versioned_target_class
  | None => raise ClassNotVersioned
  end.

Definition create_association_proxies (version_classes : list cls) : M unit :=
  for_each version_classes (fun c =>
    for_each (get_association_proxies E c) (fun k =>
      _ <- version_class c ;;
      log (AssociationProxyAdded c k))).

Definition create_hybrid_properties (version_classes : list cls) : M unit :=
  for_each version_classes (fun c =>
    for_each (get_hybrid_properties E c) (fun k =>
      _ <- version_class c ;;
      log (HybridPropertyAdded c k))).

(** ** Builder.configure_versioned_classes, before decoration *)

Definition configure_handler : M unit :=
  versioning <- gets options_versioning ;;
  if negb versioning then ret tt
  else
    build_tables ;;
    build_transaction_class ;;
    create_models <- gets options_create_models ;;
    if negb create_models then modify (set_pending_classes [])
    else
      build_models ;;
      pending_classes_copies <- gets pending_classes ;;
      modify (set_pending_classes []) ;;
      build_relationships pending_classes_copies ;;
      enable_active_history pending_classes_copies ;;
      create_column_aliases pending_classes_copies ;;
      create_association_proxies pending_classes_copies ;;
      create_hybrid_properties pending_classes_copies.

End Pass.

(** ** @prevent_reentry configure_versioned_classes

    A hook that re-enters calls this same function; [fuel] bounds the depth
    of that recursion. *)
Fixpoint configure_versioned_classes (fuel : nat) : M unit :=
  match fuel with
  | 0 => fun _ => OutOfFuel
  | S fuel' =>
      prevent_reentry (configure_handler (configure_versioned_classes fuel'))
  end.

End Builder.

Notation "x <- c1 ;; c2" := (bind c1 (fun x => c2))
  (at level 61, c1 at next level, right associativity).
Notation "c1 ;; c2" := (bind c1 (fun _ => c2))
  (at level 61, right associativity).

Arguments Return {ShadowTable A} a s.
Arguments Raised {ShadowTable A} e s.
Arguments OutOfFuel {ShadowTable A}.
Arguments Env : clear implicits.
Arguments State : clear implicits.
Arguments VersionClass : clear implicits.

(** * Observations used by the statements *)

Section Observations.

Context {ShadowTable : Type}.
Variable E : Env ShadowTable.

(** Keys of the table map whose class is mapped to physical table [t]:
    the shadow tables produced for the cluster on [t]. *)
Definition shadow_keys_on (t : Table) (tabs : dict ShadowTable) : list cls :=
  filter (fun k => Nat.eqb (table_of E k) t) (dict_keys tabs).

(** The same hook with its call back into the orchestrator removed. *)
Definition calm (b : HookBehaviour) : HookBehaviour :=
  match b with
  | Reenters => Quiet
  | Quiet => Quiet
  | Fails => Fails
  end.

(** The environment in which no hook re-enters. *)
Definition without_reentry : Env ShadowTable :=
  mkEnv (mro_tail E) (table_of E) (option_versioning E)
    (option_create_tables E) (TableBuilder E) (shadow_has_column E)
    (get_declarative_base E) (iterate_properties E) (relationship_target E)
    (columns E) (get_association_proxies E) (get_hybrid_properties E)
    (fun c => calm (after_version_class_built E c))
    (calm (after_build_models E)) (calm (after_build_tx_class E)).

(** The state an outcome leaves behind. *)
Definition final_state {A} (o : Outcome A) : option (State ShadowTable) :=
  match o with
  | Return _ s => Some s
  | Raised _ s => Some s
  | OutOfFuel => None
  end.

(** Pending classes for which [build_models] builds a shadow type. *)
Definition built_models (tabs : dict ShadowTable) (pending : list cls)
  : list cls :=
  filter (fun c => option_versioning E c
                   && match closest_matching_table E tabs c with
                      | Some _ => true
                      | None => false
                      end) pending.

Definition model_events (built : list cls) : list Event :=
  flat_map (fun c => [ModelBuilderCall c; AfterVersionClassBuilt c]) built.

(** Property keys for which [build_relationships] calls RelationshipBuilder. *)
Definition derived_property_keys (c : cls) : list string :=
  filter (fun k => negb (String.eqb k "versions"))
         (map key (iterate_properties E c)).

Definition relationship_events (version_classes : list cls) : list Event :=
  flat_map (fun c => if option_versioning E c
                     then map (RelationshipBuilderCall c)
                              (derived_property_keys c)
                     else []) version_classes.

End Observations.

Definition is_model_event (e : Event) : bool :=
  match e with
  | ModelBuilderCall _ | AfterVersionClassBuilt _ => true
  | _ => false
  end.

Definition is_relationship_event (e : Event) : bool :=
  match e with
  | RelationshipBuilderCall _ _ => true
  | _ => false
  end.

Definition is_finishing_event (e : Event) : bool :=
  match e with
  | ActiveHistorySet _ _ | ColumnAliasAdded _ _
  | AssociationProxyAdded _ _ | HybridPropertyAdded _ _ => true
  | _ => false
  end.

Definition is_table_or_tx_event (e : Event) : bool :=
  match e with
  | TableBuilderCall _ _ | TransactionModelConstructed _
  | AfterBuildTxClass => true
  | _ => false
  end.

(** * A small schema to run the builder on

    [Article] and [BlogArticle] share one physical table (single-table
    inheritance), [User] has its own, and the table of [Keyless] has no
    primary key, which TableBuilder rejects.  A shadow table is represented
    by the list of classes merged into it. *)

Module Blog.

Definition Article : cls := 0.
Definition BlogArticle : cls := 1.
Definition User : cls := 2.
Definition Keyless : cls := 3.

Definition mro_tail (c : cls) : list cls :=
  match c with
  | 1 => [Article]
  | _ => []
  end.

Definition table_of (c : cls) : Table :=
  match c with
  | 0 | 1 => 0
  | _ => c
  end.

Definition TableBuilder (c : cls) (inherited : option (list cls))
  : option (list cls) :=
  if Nat.eqb c Keyless then None
  else Some (match inherited with
             | Some merged => merged ++ [c]
             | None => [c]
             end).

Definition iterate_properties (c : cls) : list MappedProperty :=
  match c with
  | 0 | 1 => [mkProp "id" false true; mkProp "transaction" false true;
              mkProp "versions" false true; mkProp "author" false true]
  | 2 => [mkProp "id" false true; mkProp "versions" false true]
  | _ => []
  end.

Definition relationship_target (c : cls) (k : string) : option cls :=
  match c with
  | 0 | 1 => if String.eqb k "author" then Some User else None
  | _ => None
  end.

Definition env (create_tables : cls -> bool) (hook : HookBehaviour)
  : Env (list cls) :=
  mkEnv mro_tail table_of (fun _ => true) create_tables TableBuilder
    (fun _ _ => true) (fun _ => Some 0) iterate_properties
    relationship_target (fun _ => []) (fun _ => []) (fun _ => [])
    (fun _ => hook) hook hook.

Definition all : cls -> bool := fun _ => true.

(** A manager on which nothing has been derived yet. *)
Definition manager (pending : list cls) (create_models : bool)
  : State (list cls) :=
  mkState false true create_models pending [] [] None None [] [].

End Blog.

(** The original classes for which ModelBuilder is called in a trace. *)
Definition model_calls (evs : list Event) : list cls :=
  flat_map (fun e => match e with
                     | ModelBuilderCall c => [c]
                     | _ => []
                     end) evs.

Definition is_model_call (e : Event) : bool :=
  match e with
  | ModelBuilderCall _ => true
  | _ => false
  end.

(** The trace [tr] extends [tr0] by events among which ModelBuilder is
    called for each class at most as often as the class occurs in [l]. *)
Definition calls_bounded (tr0 : list Event) (l : list cls) (tr : list Event)
  : Prop :=
  exists evs, tr = tr0 ++ evs
    /\ forall c, count_occ Nat.eq_dec (model_calls evs) c
                 <= count_occ Nat.eq_dec l c.

(** What [build_transaction_class] leaves in [manager.transaction_cls], and
    what it adds to the trace, given the declarative base [b] of the first
    pending class and the Transaction entity [tx] it finds. *)
Definition transaction_after (b : Base) (tx : option TransactionClass)
  : option TransactionClass :=
  match tx with
  | Some t => Some t
  | None => Some (mkTx b)
  end.

Definition transaction_events (b : Base) (tx : option TransactionClass)
  : list Event :=
  match tx with
  | Some _ => []
  | None => [TransactionModelConstructed b]
  end ++ [AfterBuildTxClass].

(** [after_build_models] is fired only when something was pending. *)
Definition models_notice (pending : list cls) : list Event :=
  match pending with
  | [] => []
  | _ :: _ => [AfterBuildModels]
  end.

(** The original classes whose post-build notification fires in a trace. *)
Definition notified_classes (evs : list Event) : list cls :=
  flat_map (fun e => match e with
                     | AfterVersionClassBuilt c => [c]
                     | _ => []
                     end) evs.

Definition is_tx_notice (e : Event) : bool :=
  match e with
  | AfterBuildTxClass => true
  | _ => false
  end.

Definition is_tx_construction (e : Event) : bool :=
  match e with
  | TransactionModelConstructed _ => true
  | _ => false
  end.

(** * Notions used in the proofs *)

Section ProofNotions.

Context {ShadowTable : Type}.

(** Two computations that, entered with the guard's flag up, do the same
    and leave the flag up however they exit. *)
Definition sim {A} (m1 m2 : @M ShadowTable A) : Prop :=
  forall s, in_handler s = true ->
    m1 s = m2 s
    /\ match m1 s with
       | Return _ s' => in_handler s' = true
       | Raised _ s' => in_handler s' = true
       | OutOfFuel => True
       end.

(** [m], started where [P] holds, does not run out of fuel; it returns in
    [Q] or raises in [X]. *)
Definition run {A} (P : State ShadowTable -> Prop) (m : @M ShadowTable A)
    (Q : A -> State ShadowTable -> Prop) (X : State ShadowTable -> Prop)
  : Prop :=
  forall s, P s ->
    match m s with
    | Return a s' => Q a s'
    | Raised _ s' => X s'
    | OutOfFuel => False
    end.

(** Invariants that only look at the pending list and the trace. *)
Definition holds (K : list cls -> list Event -> Prop)
    (s : State ShadowTable) : Prop :=
  K (pending_classes s) (trace s).

Definition keeps (K : list cls -> list Event -> Prop) {A}
    (m : @M ShadowTable A) : Prop :=
  run (holds K) m (fun _ => holds K) (holds K).

End ProofNotions.

(** * Builder.instrument_versioned_classes

    The hosting runtime calls this hook once per mapped class, at class
    definition.  What it reads off the class is gathered in [Declared]; the
    [mapper] argument is not used.  [manager.metadata] is written here and
    read by no other function of builder.py, so it sits beside the state of
    the manager rather than in it. *)

Definition Metadata := nat.

Record Declared := mkDeclared {
  has_versioned : cls -> bool;
  versioned_class_set : cls -> bool;
  metadata_of : cls -> Metadata
}.

Section Instrument.

Context {ShadowTable : Type}.

Record Registry := mkRegistry {
  manager_state : State ShadowTable;
  metadata : option Metadata
}.

Variable D : Declared.

Definition instrument_versioned_classes (c : cls) (r : Registry) : Registry :=
  if negb (options_versioning (manager_state r)) then r
  else if has_versioned D c then
    if negb (versioned_class_set D c)
       && negb (mem c (pending_classes (manager_state r)))
    then mkRegistry
           (set_pending_classes
              (pending_classes (manager_state r) ++ [c]) (manager_state r))
           (Some (metadata_of D c))
    else r
  else r.

(** The hook called for each class of [l], in the order of definition. *)
Definition instrument_all (l : list cls) (r : Registry) : Registry :=
  fold_left (fun r0 c => instrument_versioned_classes c r0) l r.

End Instrument.

Arguments Registry : clear implicits.

(** * Further observations *)

Section MoreObservations.

Context {ShadowTable : Type}.
Variable E : Env ShadowTable.

(** Classes for which [build_tables] calls TableBuilder. *)
Definition derives_table (c : cls) : bool :=
  option_versioning E c && option_create_tables E c.

(** What [enable_active_history] adds to the trace. *)
Definition active_history_events (version_classes : list cls) : list Event :=
  flat_map (fun c =>
              map (fun prop => ActiveHistorySet c (key prop))
                  (filter (fun prop => negb (concrete_inherited prop))
                          (iterate_properties E c)))
           version_classes.

(** What [create_column_aliases] adds to the trace, given the type map. *)
Definition column_alias_events (vmap : dict (VersionClass ShadowTable))
    (version_classes : list cls) : list Event :=
  flat_map (fun c =>
              match dict_get c vmap with
              | None => []
              | Some version_class =>
                  map (fun kc => ColumnAliasAdded c (fst kc))
                      (filter (fun kc =>
                                 negb (String.eqb (fst kc) (snd kc))
                                 && shadow_has_column E
                                      (vc_table version_class) (snd kc))
                              (columns E c))
              end)
           version_classes.

End MoreObservations.

Module Blog2.

(** Every class of the schema opts into versioning; none carries a version
    class of its own yet. *)
Definition declared : Declared :=
  mkDeclared (fun _ => true) (fun _ => false) (fun _ => 7).

Definition registry (pending : list cls) : Registry (list cls) :=
  mkRegistry (Blog.manager pending true) None.

(** [Article] maps attribute [title] onto column [name], and has a mapped
    property, its polymorphic discriminator, with no class attribute. *)
Definition env_with_alias : Env (list cls) :=
  mkEnv Blog.mro_tail Blog.table_of (fun _ => true) Blog.all
    Blog.TableBuilder (fun _ k => String.eqb k "name")
    (fun _ => Some 0)
    (fun c => match c with
              | 0 => [mkProp "id" false true;
                      mkProp "_sa_polymorphic_on" false false;
                      mkProp "versions" false true]
              | _ => Blog.iterate_properties c
              end)%string
    Blog.relationship_target
    (fun c => match c with
              | 0 => [("id", "id"); ("title", "name"); ("body", "text")]
              | _ => []
              end)%string
    (fun _ => []) (fun _ => []) (fun _ => Quiet) Quiet Quiet.

End Blog2.

(** * Events by phase *)

(** Events of the phases that come before the snapshot of the pending
    list, and events of relationship derivation and the finishing passes. *)
Definition is_late_event (e : Event) : bool :=
  is_relationship_event e || is_finishing_event e.

Definition is_early_event (e : Event) : bool := negb (is_late_event e).

(** The classes for which TableBuilder is called in a trace. *)
Definition table_calls (evs : list Event) : list cls :=
  flat_map (fun e => match e with
                     | TableBuilderCall c _ => [c]
                     | _ => []
                     end) evs.

Section Appends.

Context {ShadowTable : Type}.

(** Computations that, however they exit, have changed nothing but the
    trace, and that by appending events that satisfy [P]. *)
Definition appends_only (P : Event -> bool) (m : @M ShadowTable unit)
  : Prop :=
  forall s, exists evs,
    forallb P evs = true
    /\ (m s = Return tt (set_trace (trace s ++ evs) s)
        \/ exists e, m s = Raised e (set_trace (trace s ++ evs) s)).

End Appends.

(** * Properties *)

(** Two states built from the same one by chains of field updates. *)
Ltac unfold_setters :=
  unfold set_trace, set_tables, set_version_class_map, set_relationships,
    set_transaction_cls, set_declarative_base, set_pending_classes,
    set_in_handler; simpl.

Ltac same_state :=
  unfold_setters; rewrite <- ?app_assoc, ?app_nil_r; simpl; reflexivity.

(** Field updates and projections of a state given field by field,
    innermost first. *)
Ltac norm_state :=
  cbv beta iota delta
    [set_trace set_tables set_version_class_map set_relationships
     set_transaction_cls set_declarative_base set_pending_classes
     set_in_handler in_handler options_versioning options_create_models
     pending_classes tables version_class_map transaction_cls
     declarative_base relationships trace].

Ltac norm_state_in H :=
  cbv beta iota delta
    [set_trace set_tables set_version_class_map set_relationships
     set_transaction_cls set_declarative_base set_pending_classes
     set_in_handler in_handler options_versioning options_create_models
     pending_classes tables version_class_map transaction_cls
     declarative_base relationships trace] in H.

Ltac read_state :=
  cbn [in_handler options_versioning options_create_models
       pending_classes tables version_class_map transaction_cls
       declarative_base relationships trace].

(** ** Ordered dictionaries *)

Section DictFacts.

Context {V : Type}.
Implicit Types (d : dict V) (k c : cls).

Lemma mem_In c (l : list cls) : mem c l = true <-> In c l.
Proof.
  unfold mem. rewrite existsb_exists. split.
  - intros [x [Hx Heq]]. apply Nat.eqb_eq in Heq. now subst.
  - intros H. exists c. split; [assumption | apply Nat.eqb_refl].
Qed.

Lemma mem_false_notin c (l : list cls) : mem c l = false <-> ~ In c l.
Proof.
  rewrite <- mem_In. destruct (mem c l); split; congruence.
Qed.

Lemma mem_filter c (f : cls -> bool) (l : list cls) :
  mem c (filter f l) = mem c l && f c.
Proof.
  destruct (mem c l) eqn:Hl; destruct (f c) eqn:Hf; simpl.
  - apply mem_In, filter_In. split; [now apply mem_In | assumption].
  - apply mem_false_notin. rewrite filter_In. intros [_ H]. congruence.
  - apply mem_false_notin. rewrite filter_In. intros [H _].
    apply mem_In in H. congruence.
  - apply mem_false_notin. rewrite filter_In. intros [_ H]. congruence.
Qed.

Lemma dict_mem_get k d :
  dict_mem k d = true -> exists v, dict_get k d = Some v.
Proof.
  unfold dict_mem, dict_keys.
  induction d as [|[k' v'] d IH]; simpl; [discriminate|].
  destruct (Nat.eqb k k'); simpl; eauto.
Qed.

Lemma dict_get_mem k d v : dict_get k d = Some v -> dict_mem k d = true.
Proof.
  unfold dict_mem, dict_keys.
  induction d as [|[k' v'] d IH]; simpl; [discriminate|].
  destruct (Nat.eqb k k'); simpl; auto.
Qed.

Lemma dict_keys_set_mem k v d :
  dict_mem k d = true -> dict_keys (dict_set k v d) = dict_keys d.
Proof.
  unfold dict_mem, dict_keys.
  induction d as [|[k' v'] d IH]; simpl; [discriminate|].
  destruct (Nat.eqb k k') eqn:Hk; simpl; intros H; [reflexivity|].
  now rewrite IH.
Qed.

Lemma dict_keys_set_new k v d :
  dict_mem k d = false -> dict_keys (dict_set k v d) = dict_keys d ++ [k].
Proof.
  unfold dict_mem, dict_keys.
  induction d as [|[k' v'] d IH]; simpl; [reflexivity|].
  destruct (Nat.eqb k k') eqn:Hk; simpl; intros H; [discriminate|].
  now rewrite IH.
Qed.

Lemma dict_get_set_same k v d : dict_get k (dict_set k v d) = Some v.
Proof.
  induction d as [|[k' v'] d IH]; simpl.
  - now rewrite Nat.eqb_refl.
  - destruct (Nat.eqb k k') eqn:Hk; simpl; rewrite Hk; auto.
Qed.

End DictFacts.

(** ** The closest-table resolver *)

Section Resolver.

Context {ShadowTable : Type}.
Variable E : Env ShadowTable.
Implicit Types (tabs : dict ShadowTable) (model k c : cls).

Lemma issubclass_refl c : issubclass E c c = true.
Proof. unfold issubclass, getmro, mem. simpl. now rewrite Nat.eqb_refl. Qed.

Lemma issubclass_mro model c :
  issubclass E model c = true <-> In c (getmro E model).
Proof. unfold issubclass. apply mem_In. Qed.

(** On a class of the MRO, membership in [subclasses] is membership in the
    keys of the table map. *)
Lemma candidate_on_mro tabs model c :
  In c (getmro E model) ->
  mem c (filter (fun c' => issubclass E model c') (dict_keys tabs))
  = dict_mem c tabs.
Proof.
  intros Hc. rewrite mem_filter.
  apply issubclass_mro in Hc. rewrite Hc. apply andb_true_r.
Qed.

Lemma filter_first {A} (f : A -> bool) (pre post : list A) (x : A) :
  (forall y, In y pre -> f y = false) -> f x = true ->
  filter f (pre ++ x :: post) = x :: filter f post.
Proof.
  intros Hpre Hx. induction pre as [|y pre IH]; simpl.
  - now rewrite Hx.
  - rewrite (Hpre y (or_introl eq_refl)). apply IH.
    intros z Hz. apply Hpre. now right.
Qed.

Lemma filter_none {A} (f : A -> bool) (l : list A) :
  (forall y, In y l -> f y = false) -> filter f l = [].
Proof.
  intros H. induction l as [|y l IH]; simpl; [reflexivity|].
  rewrite (H y (or_introl eq_refl)). apply IH. intros z Hz. apply H. now right.
Qed.

Lemma scan_only_first tabs model pre k post :
  getmro E model = pre ++ k :: post ->
  dict_mem k tabs = true ->
  (forall c, In c pre -> dict_mem c tabs = false) ->
  closest_matching_table_scan_only E tabs model = dict_get k tabs.
Proof.
  intros Hmro Hk Hpre. unfold closest_matching_table_scan_only.
  assert (Hin : forall c, In c (pre ++ k :: post) -> In c (getmro E model))
    by (intros c Hc; now rewrite Hmro).
  rewrite Hmro at 1. rewrite filter_first; [reflexivity | |].
  - intros y Hy. rewrite candidate_on_mro.
    + now apply Hpre.
    + apply Hin, in_or_app. now left.
  - rewrite candidate_on_mro; [assumption|].
    apply Hin, in_or_app. right. now left.
Qed.

(** C10: the exact-match lookup at the head of [closest_matching_table] is
    redundant.  For every class graph, table map and model, the resolver
    and the resolver with that lookup removed return the same table: a
    model that is a key is a subclass of itself and heads its own MRO, so
    the scan selects its entry. *)
Theorem closest_matching_table_fast_path_redundant tabs model :
  closest_matching_table E tabs model
  = closest_matching_table_scan_only E tabs model.
Proof.
  unfold closest_matching_table.
  destruct (dict_mem model tabs) eqn:Hmem; [|reflexivity].
  symmetry. apply (scan_only_first tabs model [] model (mro_tail E model)).
  - reflexivity.
  - assumption.
  - intros c [].
Qed.

(** C5: what [closest_matching_table] returns.  (1) If the model is a key
    of the table map, its own entry.  (2) Otherwise, when some class of the
    model's MRO is a key, the entry of the earliest such class; every key
    in the MRO is a supertype of the model, and every key that is a
    supertype is in the MRO.  (3) None when no key is a supertype.  (4) The
    result is a function of the table map and the model alone, so repeated
    calls agree. *)
Theorem closest_matching_table_spec tabs model :
  (dict_mem model tabs = true ->
   exists t, dict_get model tabs = Some t
             /\ closest_matching_table E tabs model = Some t)
  /\ (dict_mem model tabs = false ->
      forall pre k post,
        getmro E model = pre ++ k :: post ->
        dict_mem k tabs = true ->
        (forall c, In c pre -> dict_mem c tabs = false) ->
        issubclass E model k = true
        /\ (forall c, dict_mem c tabs = true -> issubclass E model c = true ->
                      In c (k :: post))
        /\ exists t, dict_get k tabs = Some t
                     /\ closest_matching_table E tabs model = Some t)
  /\ ((forall k, dict_mem k tabs = true -> issubclass E model k = false) ->
      closest_matching_table E tabs model = None)
  /\ (forall (s1 s2 : State ShadowTable),
        tables s1 = tables s2 ->
        closest_matching_table E (tables s1) model
        = closest_matching_table E (tables s2) model).
Proof.
  split; [|split; [|split]].
  - intros Hmem. destruct (dict_mem_get _ _ Hmem) as [t Ht].
    exists t. split; [assumption|].
    unfold closest_matching_table. now rewrite Hmem.
  - intros Hmem pre k post Hmro Hk Hpre. split; [|split].
    + apply issubclass_mro. rewrite Hmro. apply in_or_app. right. now left.
    + intros c Hc Hsub. apply issubclass_mro in Hsub. rewrite Hmro in Hsub.
      apply in_app_or in Hsub. destruct Hsub as [Hc'|Hc']; [|assumption].
      apply Hpre in Hc'. congruence.
    + destruct (dict_mem_get _ _ Hk) as [t Ht]. exists t.
      split; [assumption|].
      unfold closest_matching_table. rewrite Hmem.
      change (closest_matching_table_scan_only E tabs model = Some t).
      now rewrite (scan_only_first tabs model pre k post).
  - intros Hnone.
    assert (Hmem : dict_mem model tabs = false).
    { destruct (dict_mem model tabs) eqn:Hmem; [|reflexivity].
      apply Hnone in Hmem. now rewrite issubclass_refl in Hmem. }
    unfold closest_matching_table. rewrite Hmem.
    rewrite filter_none; [reflexivity|].
    intros y Hy. rewrite candidate_on_mro by assumption.
    destruct (dict_mem y tabs) eqn:Hy'; [|reflexivity].
    apply Hnone in Hy'. apply issubclass_mro in Hy. congruence.
  - intros s1 s2 Heq. now rewrite Heq.
Qed.

End Resolver.

Lemma closest_matching_table_spec_witness :
  (exists t,
      dict_get Blog.Article [(Blog.Article, [Blog.Article])] = Some t
      /\ closest_matching_table (Blog.env Blog.all Quiet)
           [(Blog.Article, [Blog.Article])] Blog.Article = Some t)
  /\ closest_matching_table (Blog.env Blog.all Quiet)
       [(Blog.Article, [Blog.Article])] Blog.BlogArticle
     = Some [Blog.Article]
  /\ closest_matching_table (Blog.env Blog.all Quiet)
       [(Blog.Article, [Blog.Article])] Blog.User = None.
Proof.
  split; [|split].
  - destruct (closest_matching_table_spec (Blog.env Blog.all Quiet)
                [(Blog.Article, [Blog.Article])] Blog.Article)
      as [Hexact _].
    apply Hexact. reflexivity.
  - destruct (closest_matching_table_spec (Blog.env Blog.all Quiet)
                [(Blog.Article, [Blog.Article])] Blog.BlogArticle)
      as [_ [Hscan _]].
    destruct (Hscan eq_refl [Blog.BlogArticle] Blog.Article [])
      as [_ [_ [t [Hget Hres]]]].
    + reflexivity.
    + reflexivity.
    + intros c [<-|[]]. reflexivity.
    + simpl in Hget. injection Hget as <-. exact Hres.
  - destruct (closest_matching_table_spec (Blog.env Blog.all Quiet)
                [(Blog.Article, [Blog.Article])] Blog.User)
      as [_ [_ [Hnone _]]].
    apply Hnone. intros k Hk. unfold dict_mem in Hk. simpl in Hk.
    rewrite orb_false_r in Hk. apply Nat.eqb_eq in Hk. subst k. reflexivity.
Defined.

(** ** Loops and invariants *)

Section Loops.

Context {ShadowTable : Type}.

Lemma for_each_app {A} (l1 l2 : list A) (body : A -> @M ShadowTable unit)
    (s : State ShadowTable) :
  for_each (l1 ++ l2) body s = (for_each l1 body ;; for_each l2 body) s.
Proof.
  revert s. induction l1 as [|x l1 IH]; intros s; simpl.
  - reflexivity.
  - unfold bind in *. destruct (body x s) as [[] s'| |]; try reflexivity.
    apply IH.
Qed.

(** A loop whose body returns and keeps [I] on every element returns and
    keeps [I]. *)
Lemma for_each_invariant {A} (I : State ShadowTable -> Prop) (l : list A)
    (body : A -> @M ShadowTable unit) :
  (forall x s, In x l -> I s -> exists s', body x s = Return tt s' /\ I s') ->
  forall s, I s -> exists s', for_each l body s = Return tt s' /\ I s'.
Proof.
  induction l as [|x l IH]; intros Hbody s Hs; simpl.
  - exists s. split; [reflexivity | assumption].
  - destruct (Hbody x s (or_introl eq_refl) Hs) as [s1 [H1 HI1]].
    destruct (IH (fun y s0 Hy => Hbody y s0 (or_intror Hy)) s1 HI1)
      as [s2 [H2 HI2]].
    exists s2. split; [|assumption]. unfold bind. now rewrite H1.
Qed.

End Loops.

(** ** Table derivation over an inheritance cluster *)

Section TableDerivation.

Context {ShadowTable : Type}.
Variable E : Env ShadowTable.

Lemma shadow_keys_on_set t k v (tabs : dict ShadowTable) :
  shadow_keys_on E t (dict_set k v tabs)
  = if dict_mem k tabs then shadow_keys_on E t tabs
    else shadow_keys_on E t tabs ++ (if Nat.eqb (table_of E k) t then [k] else []).
Proof.
  unfold shadow_keys_on. destruct (dict_mem k tabs) eqn:Hk.
  - now rewrite dict_keys_set_mem.
  - rewrite dict_keys_set_new by assumption. rewrite filter_app. reflexivity.
Qed.

Lemma find_inherited_some tabs c k inh :
  find_inherited E tabs c = Some (k, inh) ->
  dict_mem k tabs = true /\ issubclass E c k = true
  /\ table_of E k = table_of E c.
Proof.
  unfold find_inherited. intros H. apply find_some in H. simpl in H.
  destruct H as [Hin Hp]. apply andb_prop in Hp. destruct Hp as [Hsub Ht].
  apply Nat.eqb_eq in Ht. repeat split; auto.
  unfold dict_mem. apply mem_In. unfold dict_keys.
  change k with (fst (k, inh)). now apply in_map.
Qed.

Lemma find_inherited_none tabs c k :
  find_inherited E tabs c = None -> dict_mem k tabs = true ->
  issubclass E c k = true -> table_of E k <> table_of E c.
Proof.
  unfold find_inherited. intros H Hk Hsub Ht.
  unfold dict_mem in Hk. apply mem_In in Hk. unfold dict_keys in Hk.
  apply in_map_iff in Hk. destruct Hk as [[k' v] [Hfst Hin]]. simpl in Hfst.
  subst k'. pose proof (find_none _ _ H _ Hin) as Hp. simpl in Hp.
  rewrite Hsub, Ht, Nat.eqb_refl in Hp. discriminate.
Qed.

Lemma shadow_keys_on_In t tabs k :
  In k (shadow_keys_on E t tabs) <-> dict_mem k tabs = true /\ table_of E k = t.
Proof.
  unfold shadow_keys_on. rewrite filter_In, Nat.eqb_eq.
  unfold dict_mem. now rewrite <- mem_In.
Qed.

(** One iteration of the loop of [build_tables], when TableBuilder succeeds:
    the table map is left alone, or one entry is written, at the key the
    inner loop broke on or else at the class itself. *)
Lemma build_table_for_step c (s : State ShadowTable) :
  (forall inh, TableBuilder E c inh <> None) ->
  exists s', build_table_for E c s = Return tt s'
    /\ (tables s' = tables s
        \/ (option_versioning E c = true /\ option_create_tables E c = true
            /\ exists k v, tables s' = dict_set k v (tables s)
                 /\ ((exists inh, find_inherited E (tables s) c = Some (k, inh))
                     \/ (find_inherited E (tables s) c = None /\ k = c)))).
Proof.
  intros Hok. unfold build_table_for.
  destruct (option_versioning E c) eqn:Hv; simpl;
    [|exists s; split; [reflexivity | now left]].
  destruct (option_create_tables E c) eqn:Hc;
    [|exists s; split; [reflexivity | now left]].
  unfold bind, gets. simpl.
  destruct (find_inherited E (tables s) c) as [[k inh]|] eqn:Hf.
  - unfold call_TableBuilder, bind, log, modify, ret, raise. simpl.
    destruct (TableBuilder E c (Some inh)) as [v|] eqn:Hb;
      [|now apply Hok in Hb].
    eexists. split; [reflexivity|]. right. repeat split.
    exists k, v. simpl. split; [reflexivity|]. left. now exists inh.
  - unfold call_TableBuilder, bind, log, modify, ret, raise. simpl.
    destruct (TableBuilder E c None) as [v|] eqn:Hb; [|now apply Hok in Hb].
    eexists. split; [reflexivity|]. right. repeat split.
    exists c, v. simpl. split; [reflexivity|]. now right.
Qed.

(** A class on another physical table leaves the cluster's keys alone. *)
Lemma build_table_for_other t c (s : State ShadowTable) :
  (forall inh, TableBuilder E c inh <> None) ->
  table_of E c <> t ->
  exists s', build_table_for E c s = Return tt s'
    /\ shadow_keys_on E t (tables s') = shadow_keys_on E t (tables s).
Proof.
  intros Hok Ht. destruct (build_table_for_step c s Hok) as [s' [Hr Hs']].
  exists s'. split; [assumption|].
  destruct Hs' as [->|[_ [_ [k [v [-> Hk]]]]]]; [reflexivity|].
  rewrite shadow_keys_on_set.
  destruct Hk as [[inh Hf]|[Hf ->]].
  - apply find_inherited_some in Hf. destruct Hf as [Hmem _]. now rewrite Hmem.
  - destruct (dict_mem c (tables s)); [reflexivity|].
    apply Nat.eqb_neq in Ht. rewrite Ht. apply app_nil_r.
Qed.

(** Once the ancestor's key is the only one of the cluster, every member of
    the cluster writes at that key. *)
Lemma build_table_for_member t r c (s : State ShadowTable) :
  (forall inh, TableBuilder E c inh <> None) ->
  table_of E r = t -> table_of E c = t -> issubclass E c r = true ->
  shadow_keys_on E t (tables s) = [r] ->
  exists s', build_table_for E c s = Return tt s'
    /\ shadow_keys_on E t (tables s') = [r].
Proof.
  intros Hok Hr Hc Hsub Hkeys.
  destruct (build_table_for_step c s Hok) as [s' [Hret Hs']].
  exists s'. split; [assumption|].
  assert (Hrmem : dict_mem r (tables s) = true).
  { apply (shadow_keys_on_In t (tables s) r). rewrite Hkeys. now left. }
  destruct Hs' as [->|[_ [_ [k [v [-> Hk]]]]]]; [assumption|].
  rewrite shadow_keys_on_set.
  destruct Hk as [[inh Hf]|[Hf ->]].
  - apply find_inherited_some in Hf. destruct Hf as [Hmem _].
    now rewrite Hmem.
  - exfalso. apply (find_inherited_none _ _ r Hf Hrmem Hsub). congruence.
Qed.

(** The ancestor itself, met while the cluster has no key yet, gets its own
    entry. *)
Lemma build_table_for_root t r (s : State ShadowTable) :
  (forall inh, TableBuilder E r inh <> None) ->
  table_of E r = t ->
  option_versioning E r = true -> option_create_tables E r = true ->
  shadow_keys_on E t (tables s) = [] ->
  exists s', build_table_for E r s = Return tt s'
    /\ shadow_keys_on E t (tables s') = [r].
Proof.
  intros Hok Hr Hv Hc Hkeys.
  assert (Hnomem : forall k, dict_mem k (tables s) = true -> table_of E k <> t).
  { intros k Hk Ht.
    assert (Hin : In k (shadow_keys_on E t (tables s)))
      by (apply shadow_keys_on_In; auto).
    now rewrite Hkeys in Hin. }
  assert (Hf : find_inherited E (tables s) r = None).
  { destruct (find_inherited E (tables s) r) as [[k inh]|] eqn:Hf;
      [|reflexivity].
    apply find_inherited_some in Hf. destruct Hf as [Hmem [_ Ht]].
    exfalso. apply (Hnomem k Hmem). congruence. }
  unfold build_table_for. rewrite Hv, Hc. simpl.
  unfold bind, gets. simpl. rewrite Hf.
  unfold call_TableBuilder, bind, log, modify, ret, raise. simpl.
  destruct (TableBuilder E r None) as [v|] eqn:Hb; [|now apply Hok in Hb].
  eexists. split; [reflexivity|]. simpl.
  rewrite shadow_keys_on_set, Hkeys.
  destruct (dict_mem r (tables s)) eqn:Hm.
  - exfalso. now apply (Hnomem r Hm).
  - subst t. now rewrite Nat.eqb_refl.
Qed.

Lemma build_tables_cluster t r pre post (s : State ShadowTable) :
  pending_classes s = pre ++ r :: post ->
  (forall c inh, In c (pending_classes s) -> TableBuilder E c inh <> None) ->
  table_of E r = t ->
  option_versioning E r = true -> option_create_tables E r = true ->
  (forall c, In c pre -> table_of E c <> t) ->
  (forall c, In c post -> table_of E c = t -> issubclass E c r = true) ->
  shadow_keys_on E t (tables s) = [] ->
  exists s', build_tables E s = Return tt s'
    /\ shadow_keys_on E t (tables s') = [r]
    /\ exists tbl, dict_get r (tables s') = Some tbl.
Proof.
  intros Hp Hok Hr Hv Hc Hpre Hpost Hkeys.
  unfold build_tables, bind, gets. rewrite Hp in *. clear Hp.
  rewrite for_each_app. unfold bind.
  destruct (for_each_invariant
              (fun s0 => shadow_keys_on E t (tables s0) = []) pre
              (build_table_for E)) with (s := s) as [s1 [H1 HI1]];
    [|assumption|].
  { intros x s0 Hx HI.
    destruct (build_table_for_other t x s0) as [s' [Hs' Hk]].
    - intros inh. apply Hok, in_or_app. now left.
    - now apply Hpre.
    - exists s'. split; [assumption | congruence]. }
  rewrite H1. simpl. unfold bind.
  destruct (build_table_for_root t r s1) as [s2 [H2 HI2]]; auto.
  { intros inh. apply Hok, in_or_app. right. now left. }
  rewrite H2.
  destruct (for_each_invariant
              (fun s0 => shadow_keys_on E t (tables s0) = [r]) post
              (build_table_for E)) with (s := s2) as [s3 [H3 HI3]];
    [|assumption|].
  { intros x s0 Hx HI.
    assert (Hokx : forall inh, TableBuilder E x inh <> None).
    { intros inh. apply Hok, in_or_app. right. now right. }
    destruct (Nat.eq_dec (table_of E x) t) as [Hxt|Hxt].
    - apply (build_table_for_member t r x s0); auto.
    - destruct (build_table_for_other t x s0 Hokx Hxt) as [s' [Hs' Hk]].
      exists s'. split; [assumption | congruence]. }
  exists s3. repeat split; try assumption.
  apply dict_mem_get. apply (shadow_keys_on_In t (tables s3) r).
  rewrite HI3. now left.
Qed.


End TableDerivation.



(** ** The reentrancy guard *)

Section Guard.

Context {ShadowTable : Type}.
Implicit Types (s : State ShadowTable).

Lemma sim_ret {A} (a : A) : sim (@ret ShadowTable A a) (ret a).
Proof. intros s Hs. split; [reflexivity | assumption]. Qed.

Lemma sim_raise {A} (e : Error) : sim (@raise ShadowTable A e) (raise e).
Proof. intros s Hs. split; [reflexivity | assumption]. Qed.

Lemma sim_gets {A} (f : State ShadowTable -> A) : sim (gets f) (gets f).
Proof. intros s Hs. split; [reflexivity | assumption]. Qed.

Lemma sim_modify (f : State ShadowTable -> State ShadowTable) :
  (forall s, in_handler (f s) = in_handler s) -> sim (modify f) (modify f).
Proof.
  intros Hf s Hs. split; [reflexivity|]. simpl. now rewrite Hf.
Qed.

Lemma sim_log (e : Event) : sim (@log ShadowTable e) (log e).
Proof. apply sim_modify. reflexivity. Qed.

Lemma sim_bind {A B} (m1 m2 : M A) (k1 k2 : A -> @M ShadowTable B) :
  sim m1 m2 -> (forall a, sim (k1 a) (k2 a)) -> sim (bind m1 k1) (bind m2 k2).
Proof.
  intros Hm Hk s Hs. unfold bind. destruct (Hm s Hs) as [Heq Hflag].
  rewrite <- Heq. destruct (m1 s) as [a s'|e s'|].
  - apply Hk. assumption.
  - split; [reflexivity | assumption].
  - split; [reflexivity | exact I].
Qed.

Lemma sim_for_each {A} (l : list A) (b1 b2 : A -> @M ShadowTable unit) :
  (forall x, sim (b1 x) (b2 x)) -> sim (for_each l b1) (for_each l b2).
Proof.
  intros Hb. induction l as [|x l IH]; simpl.
  - apply sim_ret.
  - apply sim_bind; [apply Hb | intros _; apply IH].
Qed.

(** Structural descent through a pair of computations of the same shape. *)
Ltac sim_step :=
  first
    [ apply sim_ret
    | apply sim_raise
    | apply sim_gets
    | apply sim_log
    | apply sim_modify; intros; reflexivity
    | apply sim_for_each; intros ?
    | apply sim_bind; [| intros ?]
    | match goal with
      | |- sim (if ?b then _ else _) _ => destruct b eqn:?
      | |- sim (match ?x with _ => _ end) _ => destruct x eqn:?
      end ].

Ltac sim_auto := repeat sim_step.

Variable E : Env ShadowTable.

(** What the hooks call and what they would call in the calmed
    environment; the first does nothing while the flag is up. *)
Variables reenter reenter' : @M ShadowTable unit.
Hypothesis reenter_collapses :
  forall s, in_handler s = true -> reenter s = Return tt s.

Lemma sim_run_hook (ev : Event) (b : HookBehaviour) :
  sim (run_hook reenter ev b) (run_hook reenter' ev (calm b)).
Proof.
  unfold run_hook. apply sim_bind; [apply sim_log | intros _].
  destruct b; simpl; try sim_step.
  intros s Hs. rewrite (reenter_collapses s Hs). split; [reflexivity | assumption].
Qed.

Lemma sim_build_tables : sim (build_tables E) (build_tables (without_reentry E)).
Proof.
  unfold build_tables, build_table_for, call_TableBuilder, find_inherited,
    issubclass, getmro, without_reentry. simpl.
  sim_auto.
Qed.

Lemma sim_create_transaction_model :
  sim (@create_transaction_model ShadowTable) create_transaction_model.
Proof. unfold create_transaction_model. sim_auto. Qed.

Lemma sim_build_transaction_class :
  sim (build_transaction_class E reenter)
      (build_transaction_class (without_reentry E) reenter').
Proof.
  unfold build_transaction_class. simpl.
  apply sim_bind; [sim_step | intros pending].
  destruct pending as [|c pending]; [sim_step|].
  destruct (get_declarative_base E c); [|sim_step].
  apply sim_bind; [sim_step | intros _].
  apply sim_bind; [apply sim_create_transaction_model | intros _].
  apply sim_run_hook.
Qed.

Lemma sim_build_models :
  sim (build_models E reenter) (build_models (without_reentry E) reenter').
Proof.
  unfold build_models.
  apply sim_bind; [sim_step | intros pending].
  destruct pending as [|c0 pending0]; [sim_step|].
  apply sim_bind; [| intros _; apply sim_run_hook].
  apply sim_for_each. intros c.
  unfold build_model_for. simpl.
  destruct (option_versioning E c); simpl; [|sim_step].
  apply sim_bind; [sim_step | intros tabs].
  change (closest_matching_table (without_reentry E) tabs c)
    with (closest_matching_table E tabs c).
  destruct (closest_matching_table E tabs c) as [table|]; [|sim_step].
  apply sim_bind; [| intros _; apply sim_run_hook].
  unfold ModelBuilder. sim_auto.
Qed.

Lemma sim_build_relationships l :
  sim (build_relationships E l) (build_relationships (without_reentry E) l).
Proof.
  unfold build_relationships, build_relationships_for, RelationshipBuilder.
  simpl. sim_auto.
Qed.

Lemma sim_enable_active_history l :
  sim (enable_active_history E l) (enable_active_history (without_reentry E) l).
Proof. unfold enable_active_history. simpl. sim_auto. Qed.

Lemma sim_create_column_aliases l :
  sim (create_column_aliases E l) (create_column_aliases (without_reentry E) l).
Proof. unfold create_column_aliases. simpl. sim_auto. Qed.

Lemma sim_create_association_proxies l :
  sim (create_association_proxies E l)
      (create_association_proxies (without_reentry E) l).
Proof. unfold create_association_proxies. simpl. sim_auto. Qed.

Lemma sim_create_hybrid_properties l :
  sim (create_hybrid_properties E l)
      (create_hybrid_properties (without_reentry E) l).
Proof. unfold create_hybrid_properties. simpl. sim_auto. Qed.

Lemma sim_configure_handler :
  sim (configure_handler E reenter)
      (configure_handler (without_reentry E) reenter').
Proof.
  unfold configure_handler.
  apply sim_bind; [sim_step | intros versioning].
  destruct (negb versioning); [sim_step|].
  apply sim_bind; [apply sim_build_tables | intros _].
  apply sim_bind; [apply sim_build_transaction_class | intros _].
  apply sim_bind; [sim_step | intros create_models].
  destruct (negb create_models); [sim_step|].
  apply sim_bind; [apply sim_build_models | intros _].
  apply sim_bind; [sim_step | intros copies].
  apply sim_bind; [sim_step | intros _].
  apply sim_bind; [apply sim_build_relationships | intros _].
  apply sim_bind; [apply sim_enable_active_history | intros _].
  apply sim_bind; [apply sim_create_column_aliases | intros _].
  apply sim_bind; [apply sim_create_association_proxies | intros _].
  apply sim_create_hybrid_properties.
Qed.

End Guard.

(** ** Postconditions for all exits *)

Section Run.

Context {ShadowTable : Type}.
Implicit Types (s : State ShadowTable).

Lemma run_bind {A B} P (m : M A) (k : A -> @M ShadowTable B) Q R X :
  run P m Q X -> (forall a, run (Q a) (k a) R X) -> run P (bind m k) R X.
Proof.
  intros Hm Hk s Hs. unfold bind. specialize (Hm s Hs).
  destruct (m s) as [a s'|e s'|]; [|assumption|assumption].
  apply (Hk a s' Hm).
Qed.

Lemma run_conseq {A} (P P' : State ShadowTable -> Prop) (m : @M ShadowTable A)
    (Q Q' : A -> State ShadowTable -> Prop) (X X' : State ShadowTable -> Prop) :
  run P m Q X ->
  (forall s, P' s -> P s) -> (forall a s, Q a s -> Q' a s) ->
  (forall s, X s -> X' s) -> run P' m Q' X'.
Proof.
  intros Hm HP HQ HX s Hs. specialize (Hm s (HP s Hs)).
  destruct (m s); auto.
Qed.

(** A loop with an invariant indexed by the elements already visited. *)
Lemma run_for_each_indexed {A} (l : list A) (body : A -> @M ShadowTable unit)
    (Inv : list A -> State ShadowTable -> Prop) X :
  (forall done x rest, l = done ++ x :: rest ->
     run (Inv done) (body x) (fun _ => Inv (done ++ [x])) X) ->
  run (Inv []) (for_each l body) (fun _ => Inv l) X.
Proof.
  intros Hbody.
  assert (H : forall rest done, l = done ++ rest ->
                run (Inv done) (for_each rest body) (fun _ => Inv l) X).
  { induction rest as [|x rest IH]; intros done Hl; simpl.
    - intros s Hs. simpl. rewrite app_nil_r in Hl. now rewrite Hl.
    - eapply run_bind; [apply (Hbody done x rest Hl)|].
      intros u. apply IH. rewrite <- app_assoc. exact Hl. }
  apply (H l []). reflexivity.
Qed.

(** Invariants that only look at the pending list and the trace, and
    survive the logging of the events [allowed]. *)
Variable K : list cls -> list Event -> Prop.
Variable allowed : Event -> bool.
Hypothesis K_log :
  forall p tr e, allowed e = true -> K p tr -> K p (tr ++ [e]).

Lemma keeps_ret {A} (a : A) : keeps K (@ret ShadowTable A a).
Proof. intros s Hs. exact Hs. Qed.

Lemma keeps_raise {A} (e : Error) : keeps K (@raise ShadowTable A e).
Proof. intros s Hs. exact Hs. Qed.

Lemma keeps_gets {A} (f : State ShadowTable -> A) : keeps K (gets f).
Proof. intros s Hs. exact Hs. Qed.

Lemma keeps_modify (f : State ShadowTable -> State ShadowTable) :
  (forall s, pending_classes (f s) = pending_classes s) ->
  (forall s, trace (f s) = trace s) -> keeps K (modify f).
Proof.
  intros Hp Ht s Hs. unfold holds in *. simpl. now rewrite Hp, Ht.
Qed.

Lemma keeps_log (e : Event) : allowed e = true -> keeps K (@log ShadowTable e).
Proof. intros He s Hs. unfold holds in *. simpl. now apply K_log. Qed.

Lemma keeps_bind {A B} (m : M A) (k : A -> @M ShadowTable B) :
  keeps K m -> (forall a, keeps K (k a)) -> keeps K (bind m k).
Proof. intros Hm Hk. eapply run_bind; [apply Hm | apply Hk]. Qed.

Lemma keeps_for_each {A} (l : list A) (body : A -> @M ShadowTable unit) :
  (forall x, keeps K (body x)) -> keeps K (for_each l body).
Proof.
  intros Hb. induction l as [|x l IH]; simpl.
  - apply keeps_ret.
  - apply keeps_bind; [apply Hb | intros _; apply IH].
Qed.

Ltac keeps_step :=
  first
    [ apply keeps_ret
    | apply keeps_raise
    | apply keeps_gets
    | apply keeps_log; auto
    | apply keeps_modify; intros; reflexivity
    | apply keeps_for_each; intros ?
    | apply keeps_bind; [| intros ?]
    | match goal with
      | |- keeps K (if ?b then _ else _) => destruct b eqn:?
      | |- keeps K (match ?x with _ => _ end) => destruct x eqn:?
      end ].

Ltac keeps_auto := repeat keeps_step.

Variable E : Env ShadowTable.
Variable reenter : @M ShadowTable unit.

Lemma keeps_run_hook ev b :
  allowed ev = true -> b <> Reenters -> keeps K (run_hook reenter ev b).
Proof.
  intros Hev Hb. unfold run_hook.
  apply keeps_bind; [now apply keeps_log | intros _].
  destruct b; [apply keeps_ret | congruence | apply keeps_raise].
Qed.

Lemma keeps_build_tables :
  (forall c from, allowed (TableBuilderCall c from) = true) ->
  keeps K (build_tables E).
Proof.
  intros Hal.
  unfold build_tables, build_table_for, call_TableBuilder. keeps_auto.
Qed.

Lemma keeps_build_transaction_class :
  (forall b, allowed (TransactionModelConstructed b) = true) ->
  allowed AfterBuildTxClass = true ->
  after_build_tx_class E <> Reenters ->
  keeps K (build_transaction_class E reenter).
Proof.
  intros Hal1 Hal2 Hb.
  unfold build_transaction_class, create_transaction_model.
  apply keeps_bind; [keeps_step | intros pending].
  destruct pending as [|c pending]; [keeps_step|].
  destruct (get_declarative_base E c); [|keeps_step].
  apply keeps_bind; [keeps_step | intros _].
  apply keeps_bind; [keeps_auto | intros _].
  now apply keeps_run_hook.
Qed.

Lemma keeps_finishing l :
  (forall c k, allowed (RelationshipBuilderCall c k) = true) ->
  (forall c k, allowed (ActiveHistorySet c k) = true) ->
  (forall c k, allowed (ColumnAliasAdded c k) = true) ->
  (forall c k, allowed (AssociationProxyAdded c k) = true) ->
  (forall c k, allowed (HybridPropertyAdded c k) = true) ->
  keeps K (build_relationships E l ;;
         enable_active_history E l ;;
         create_column_aliases E l ;;
         create_association_proxies E l ;;
         create_hybrid_properties E l).
Proof.
  intros H1 H2 H3 H4 H5.
  unfold build_relationships, build_relationships_for, RelationshipBuilder,
    enable_active_history, create_column_aliases,
    create_association_proxies, create_hybrid_properties.
  keeps_auto.
Qed.

End Run.

(** ** How often a shadow type is built in one pass *)

Section ModelCalls.

Context {ShadowTable : Type}.
Variable E : Env ShadowTable.
Variable reenter : @M ShadowTable unit.
Implicit Types (s : State ShadowTable).

Lemma model_calls_app evs1 evs2 :
  model_calls (evs1 ++ evs2) = model_calls evs1 ++ model_calls evs2.
Proof. unfold model_calls. apply flat_map_app. Qed.

Lemma calls_bounded_refl tr0 l : calls_bounded tr0 l tr0.
Proof.
  exists []. split; [now rewrite app_nil_r | intros c; apply Nat.le_0_l].
Qed.

Lemma calls_bounded_log tr0 l tr e :
  is_model_call e = false ->
  calls_bounded tr0 l tr -> calls_bounded tr0 l (tr ++ [e]).
Proof.
  intros He [evs [-> Hb]]. exists (evs ++ [e]).
  split; [now rewrite app_assoc|]. intros c.
  rewrite model_calls_app. destruct e; try discriminate;
    simpl; rewrite app_nil_r; apply Hb.
Qed.

Lemma calls_bounded_call tr0 l tr c :
  calls_bounded tr0 l tr ->
  calls_bounded tr0 (l ++ [c]) (tr ++ [ModelBuilderCall c]).
Proof.
  intros [evs [-> Hb]]. exists (evs ++ [ModelBuilderCall c]).
  split; [now rewrite app_assoc|]. intros c'.
  rewrite model_calls_app.
  change (model_calls [ModelBuilderCall c]) with [c].
  rewrite !count_occ_app. apply Nat.add_le_mono_r. apply Hb.
Qed.

Lemma calls_bounded_mono tr0 l l' tr :
  (forall c, count_occ Nat.eq_dec l c <= count_occ Nat.eq_dec l' c) ->
  calls_bounded tr0 l tr -> calls_bounded tr0 l' tr.
Proof.
  intros Hl [evs [-> Hb]]. exists evs. split; [reflexivity|].
  intros c. exact (Nat.le_trans _ _ _ (Hb c) (Hl c)).
Qed.

Lemma count_occ_prefix (done rest : list cls) c :
  count_occ Nat.eq_dec done c <= count_occ Nat.eq_dec (done ++ rest) c.
Proof. rewrite count_occ_app. apply Nat.le_add_r. Qed.

(** One iteration of [build_models] whose hook does not re-enter. *)
Lemma build_model_for_calls tr0 done c rest :
  after_version_class_built E c <> Reenters ->
  run (fun s => calls_bounded tr0 done (trace s))
      (build_model_for E reenter c)
      (fun _ s => calls_bounded tr0 (done ++ [c]) (trace s))
      (fun s => calls_bounded tr0 (done ++ c :: rest) (trace s)).
Proof.
  intros Hb s Hs. unfold build_model_for.
  assert (Hstay : calls_bounded tr0 (done ++ [c]) (trace s)).
  { eapply calls_bounded_mono; [|exact Hs]. intros c'. apply count_occ_prefix. }
  destruct (option_versioning E c); simpl; [|exact Hstay].
  unfold bind, gets. simpl.
  destruct (closest_matching_table E (tables s) c) as [table|];
    [|exact Hstay].
  unfold ModelBuilder, run_hook, bind, gets, log, modify, ret, raise. simpl.
  assert (Hcall : calls_bounded tr0 (done ++ [c])
                    ((trace s ++ [ModelBuilderCall c])
                       ++ [AfterVersionClassBuilt c])).
  { apply calls_bounded_log; [reflexivity|]. now apply calls_bounded_call. }
  destruct (after_version_class_built E c); simpl.
  - exact Hcall.
  - congruence.
  - eapply calls_bounded_mono; [|exact Hcall]. intros c'.
    change (done ++ c :: rest) with (done ++ [c] ++ rest).
    rewrite app_assoc. apply count_occ_prefix.
Qed.

Lemma build_models_calls tr0 pending :
  (forall c, after_version_class_built E c <> Reenters) ->
  after_build_models E <> Reenters ->
  run (fun s => pending_classes s = pending
                /\ calls_bounded tr0 [] (trace s))
      (build_models E reenter)
      (fun _ s => pending_classes s = pending
                  /\ calls_bounded tr0 pending (trace s))
      (fun s => calls_bounded tr0 pending (trace s)).
Proof.
  intros Hb Hb'. unfold build_models.
  eapply run_bind with (Q := fun p s =>
      p = pending /\ pending_classes s = pending
      /\ calls_bounded tr0 [] (trace s)).
  { intros s [Hp Hs]. simpl. auto. }
  intros p s [-> [Hp Hs]]. destruct pending as [|c0 pending0] eqn:Hpend.
  { simpl. auto. }
  rewrite <- Hpend in *. clear Hpend c0 pending0.
  revert s Hp Hs.
  cut (run (fun s => pending_classes s = pending
                     /\ calls_bounded tr0 [] (trace s))
           (for_each pending (build_model_for E reenter) ;;
            run_hook reenter AfterBuildModels (after_build_models E))
           (fun _ s => pending_classes s = pending
                       /\ calls_bounded tr0 pending (trace s))
           (fun s => calls_bounded tr0 pending (trace s))).
  { intros H s Hp Hs. apply H. auto. }
  eapply run_bind.
  - apply (run_for_each_indexed pending (build_model_for E reenter)
             (fun done s => pending_classes s = pending
                            /\ calls_bounded tr0 done (trace s))).
    intros done x rest Hl s [Hp Hs].
    pose proof (build_model_for_calls tr0 done x rest (Hb x) s Hs) as Hrun.
    assert (Hpend : forall o : Outcome unit,
               o = build_model_for E reenter x s ->
               match o with
               | Return _ s' => pending_classes s' = pending_classes s
               | _ => True
               end).
    { intros o ->. unfold build_model_for.
      destruct (option_versioning E x); simpl; [|reflexivity].
      unfold bind, gets. simpl.
      destruct (closest_matching_table E (tables s) x); [|reflexivity].
      unfold ModelBuilder, run_hook, bind, gets, log, modify, ret, raise.
      simpl. destruct (after_version_class_built E x) eqn:Hx; simpl; auto.
      now apply Hb in Hx. }
    specialize (Hpend _ eq_refl).
    destruct (build_model_for E reenter x s) as [[] s'|e s'|].
    + split; [congruence | assumption].
    + now rewrite Hl.
    + assumption.
  - intros _ s [Hp Hs]. unfold run_hook, bind, log, modify, ret, raise.
    simpl.
    assert (Hlog : calls_bounded tr0 pending (trace s ++ [AfterBuildModels]))
      by (now apply calls_bounded_log).
    destruct (after_build_models E); simpl; auto. congruence.
Qed.

(** The body of the orchestrator, in an environment whose hooks do not
    re-enter: however it exits, ModelBuilder has been called for each
    class at most as often as the class was pending. *)
Lemma configure_handler_calls tr0 pending :
  (forall c, after_version_class_built E c <> Reenters) ->
  after_build_models E <> Reenters ->
  after_build_tx_class E <> Reenters ->
  run (fun s => pending_classes s = pending /\ trace s = tr0)
      (configure_handler E reenter)
      (fun _ s => calls_bounded tr0 pending (trace s))
      (fun s => calls_bounded tr0 pending (trace s)).
Proof.
  intros Hb1 Hb2 Hb3.
  set (K1 := fun (p : list cls) tr =>
               p = pending /\ calls_bounded tr0 [] tr).
  set (K2 := fun (p : list cls) tr => calls_bounded tr0 pending tr).
  set (quiet := fun e => negb (is_model_call e)).
  assert (HK1 : forall p tr e, quiet e = true -> K1 p tr -> K1 p (tr ++ [e])).
  { intros p tr e He [Hp Hc]. split; [assumption|].
    apply calls_bounded_log; [|assumption].
    unfold quiet in He. now destruct (is_model_call e). }
  assert (HK2 : forall p tr e, quiet e = true -> K2 p tr -> K2 p (tr ++ [e])).
  { intros p tr e He Hc. apply calls_bounded_log; [|assumption].
    unfold quiet in He. now destruct (is_model_call e). }
  assert (H12 : forall s, holds K1 s -> calls_bounded tr0 pending (trace s)).
  { intros s [_ Hs]. eapply calls_bounded_mono; [|exact Hs].
    intros c. apply Nat.le_0_l. }
  unfold configure_handler.
  eapply run_bind with (Q := fun _ s => holds K1 s).
  { intros s [Hp Ht]. simpl. split; [assumption|].
    rewrite Ht. apply calls_bounded_refl. }
  intros versioning. destruct (negb versioning).
  { intros s Hs. simpl. now apply H12. }
  eapply run_bind with (Q := fun _ s => holds K1 s).
  { eapply run_conseq; [apply (keeps_build_tables K1 quiet HK1 E)|..]; auto. }
  intros _.
  eapply run_bind with (Q := fun _ s => holds K1 s).
  { eapply run_conseq;
      [apply (keeps_build_transaction_class K1 quiet HK1 E reenter)|..]; auto. }
  intros _.
  eapply run_bind with (Q := fun _ s => holds K1 s).
  { intros s Hs. exact Hs. }
  intros create_models. destruct (negb create_models).
  { intros s Hs. simpl. now apply H12. }
  eapply run_bind with (Q := fun _ s => holds K2 s).
  { eapply run_conseq; [apply (build_models_calls tr0 pending Hb1 Hb2)|..].
    - intros s Hs. exact Hs.
    - intros _ s [_ Hs]. exact Hs.
    - auto. }
  intros _.
  eapply run_bind with (Q := fun _ s => holds K2 s).
  { intros s Hs. exact Hs. }
  intros copies.
  eapply run_bind with (Q := fun _ s => holds K2 s).
  { intros s Hs. exact Hs. }
  intros _.
  eapply run_conseq;
    [apply (keeps_finishing K2 quiet HK2 E copies)|..]; auto.
Qed.

End ModelCalls.

(** ** The guarded orchestrator *)

Section Orchestrator.

Context {ShadowTable : Type}.
Variable E : Env ShadowTable.
Implicit Types (s : State ShadowTable).

Lemma nested_invocation_returns fuel s :
  in_handler s = true ->
  configure_versioned_classes E (S fuel) s = Return tt s.
Proof. intros Hs. simpl. unfold prevent_reentry. now rewrite Hs. Qed.

Lemma prevent_reentry_sim (h1 h2 : @M ShadowTable unit) :
  sim h1 h2 -> forall s, prevent_reentry h1 s = prevent_reentry h2 s.
Proof.
  intros Hsim s. unfold prevent_reentry.
  destruct (in_handler s); [reflexivity|].
  destruct (Hsim (set_in_handler true s) eq_refl) as [Heq _].
  now rewrite Heq.
Qed.

(** Two levels of fuel are enough: whatever the hooks do, the pass is the
    pass of the environment whose hooks do not re-enter. *)
Lemma configure_without_reentry fuel fuel' s :
  configure_versioned_classes E (S (S fuel)) s
  = configure_versioned_classes (without_reentry E) (S fuel') s.
Proof.
  change (configure_versioned_classes E (S (S fuel)))
    with (prevent_reentry
            (configure_handler E (configure_versioned_classes E (S fuel)))).
  change (configure_versioned_classes (without_reentry E) (S fuel'))
    with (prevent_reentry
            (configure_handler (without_reentry E)
               (configure_versioned_classes (without_reentry E) fuel'))).
  apply prevent_reentry_sim, sim_configure_handler.
  intros s0. apply nested_invocation_returns.
Qed.

Lemma calm_not_reenters b : calm b <> Reenters.
Proof. destruct b; discriminate. Qed.

Lemma configure_calls_bounded fuel s :
  exists s',
    final_state (configure_versioned_classes E (S (S fuel)) s) = Some s'
    /\ calls_bounded (trace s) (pending_classes s) (trace s').
Proof.
  rewrite (configure_without_reentry fuel 0). simpl. unfold prevent_reentry.
  destruct (in_handler s) eqn:Hflag.
  { exists s. split; [reflexivity | apply calls_bounded_refl]. }
  pose proof (configure_handler_calls (without_reentry E)
                (fun _ => OutOfFuel) (trace s) (pending_classes s)
                (fun c => calm_not_reenters _) (calm_not_reenters _)
                (calm_not_reenters _) (set_in_handler true s)
                (conj eq_refl eq_refl)) as Hrun.
  destruct (configure_handler (without_reentry E) (fun _ => OutOfFuel)
              (set_in_handler true s)) as [[] s1|e s1|].
  - exists (set_in_handler false s1). split; [reflexivity | exact Hrun].
  - exists s1. split; [reflexivity | exact Hrun].
  - contradiction.
Qed.

(** C3: an invocation that arrives while the guard's flag is up returns at
    once and changes nothing; so a pass whose hooks call the orchestrator
    again runs exactly as the pass whose hooks do not, to the same outcome
    and state; and however the pass ends, ModelBuilder has been called for
    each original class at most as often as the class was pending, which is
    at most once when the pending list has no duplicate. *)
Theorem nested_invocation_collapses fuel s :
  (in_handler s = true ->
   configure_versioned_classes E (S fuel) s = Return tt s)
  /\ configure_versioned_classes E (S (S fuel)) s
     = configure_versioned_classes (without_reentry E) 1 s
  /\ exists s' evs,
       final_state (configure_versioned_classes E (S (S fuel)) s) = Some s'
       /\ trace s' = trace s ++ evs
       /\ (forall c, count_occ Nat.eq_dec (model_calls evs) c
                     <= count_occ Nat.eq_dec (pending_classes s) c)
       /\ (NoDup (pending_classes s) ->
           forall c, count_occ Nat.eq_dec (model_calls evs) c <= 1).
Proof.
  split; [apply nested_invocation_returns|].
  split; [apply configure_without_reentry|].
  destruct (configure_calls_bounded fuel s) as [s' [Hfin [evs [Htr Hb]]]].
  exists s', evs. repeat split; try assumption.
  intros Hnd c. eapply Nat.le_trans; [apply Hb|].
  now apply (proj1 (NoDup_count_occ Nat.eq_dec (pending_classes s))).
Qed.

(** C2: with an empty pending list the orchestrator returns the state it
    was given: no table, shadow type, relationship or trace entry is added,
    whatever the options and the guard's flag. *)
Theorem configure_idempotent_when_drained fuel s :
  pending_classes s = [] ->
  configure_versioned_classes E (S fuel) s = Return tt s.
Proof.
  intros Hp. destruct s as [flag v cm p tabs vmap tx base rels tr].
  simpl in Hp. subst p. simpl. unfold prevent_reentry. simpl.
  destruct flag; [reflexivity|].
  unfold configure_handler, bind, gets. simpl.
  destruct v; simpl; [|reflexivity].
  destruct cm; reflexivity.
Qed.

End Orchestrator.

Lemma nested_invocation_collapses_witness :
  configure_versioned_classes (Blog.env Blog.all Reenters) 2
    (set_in_handler true (Blog.manager [Blog.Article; Blog.User] true))
  = Return tt (set_in_handler true (Blog.manager [Blog.Article; Blog.User] true))
  /\ exists s' evs,
       final_state (configure_versioned_classes (Blog.env Blog.all Reenters) 2
                      (Blog.manager [Blog.Article; Blog.User] true)) = Some s'
       /\ trace s' = evs
       /\ forall c, count_occ Nat.eq_dec (model_calls evs) c <= 1.
Proof.
  split.
  - destruct (nested_invocation_collapses (Blog.env Blog.all Reenters) 1
                (set_in_handler true
                   (Blog.manager [Blog.Article; Blog.User] true)))
      as [Hnested _].
    exact (Hnested eq_refl).
  - destruct (nested_invocation_collapses (Blog.env Blog.all Reenters) 0
                (Blog.manager [Blog.Article; Blog.User] true))
      as [_ [_ [s' [evs [Hfin [Htr [_ Hnd]]]]]]].
    exists s', evs. repeat split; try assumption.
    apply Hnd. simpl. repeat constructor; simpl; intuition discriminate.
Defined.

Lemma configure_idempotent_when_drained_witness :
  configure_versioned_classes (Blog.env Blog.all Reenters) 1
    (Blog.manager [] true)
  = Return tt (Blog.manager [] true).
Proof.
  apply (configure_idempotent_when_drained (Blog.env Blog.all Reenters) 0
           (Blog.manager [] true)).
  reflexivity.
Defined.

(** C4 does not hold of [prevent_reentry]: it resets the flag only after
    the handler has returned.  [Keyless] makes TableBuilder raise; the
    error leaves the orchestrator with the flag still up, and from then on
    every invocation, in whatever environment, returns at once and leaves
    [Keyless] pending. *)
Theorem guard_flag_stuck_after_error :
  exists s1,
    configure_versioned_classes (Blog.env Blog.all Quiet) 2
      (Blog.manager [Blog.Keyless] true)
    = Raised ConfigurationError s1
    /\ in_handler s1 = true
    /\ pending_classes s1 = [Blog.Keyless]
    /\ forall (E' : Env (list cls)) fuel,
         configure_versioned_classes E' (S fuel) s1 = Return tt s1.
Proof.
  eexists. split; [vm_compute; reflexivity|].
  split; [reflexivity|]. split; [reflexivity|].
  intros E' fuel. now apply nested_invocation_returns.
Qed.

(** ** The phases of a pass, when the collaborators succeed *)

Section Phases.

Context {ShadowTable : Type}.
Variable E : Env ShadowTable.
Implicit Types (s : State ShadowTable).

Lemma build_table_for_trace c s :
  (forall inh, TableBuilder E c inh <> None) ->
  exists tabs' evs,
    build_table_for E c s
    = Return tt (set_trace (trace s ++ evs) (set_tables tabs' s))
    /\ forallb is_table_or_tx_event evs = true.
Proof.
  intros Hok. unfold build_table_for.
  assert (Hskip : exists tabs' evs,
             Return tt s = Return tt (set_trace (trace s ++ evs)
                                        (set_tables tabs' s))
             /\ forallb is_table_or_tx_event evs = true).
  { exists (tables s), []. split; [|reflexivity].
    destruct s. same_state. }
  destruct (option_versioning E c); simpl; [|exact Hskip].
  destruct (option_create_tables E c); [|exact Hskip].
  unfold bind, gets. simpl.
  destruct (find_inherited E (tables s) c) as [[k inh]|].
  - unfold call_TableBuilder, bind, log, modify, ret, raise. simpl.
    destruct (TableBuilder E c (Some inh)) as [v|] eqn:Hb;
      [|now apply Hok in Hb].
    exists (dict_set k v (tables s)), [TableBuilderCall c (Some k)].
    split; [reflexivity|reflexivity].
  - unfold call_TableBuilder, bind, log, modify, ret, raise. simpl.
    destruct (TableBuilder E c None) as [v|] eqn:Hb; [|now apply Hok in Hb].
    exists (dict_set c v (tables s)), [TableBuilderCall c None].
    split; [reflexivity|reflexivity].
Qed.

Lemma for_each_build_table_for l s :
  (forall c inh, In c l -> TableBuilder E c inh <> None) ->
  exists tabs' evs,
    for_each l (build_table_for E) s
    = Return tt (set_trace (trace s ++ evs) (set_tables tabs' s))
    /\ forallb is_table_or_tx_event evs = true.
Proof.
  revert s. induction l as [|c l IH]; intros s Hok; simpl.
  - exists (tables s), []. split; [|reflexivity]. destruct s. same_state.
  - destruct (build_table_for_trace c s) as [tabs1 [evs1 [H1 Hev1]]].
    { intros inh. apply Hok. now left. }
    unfold bind. rewrite H1.
    destruct (IH (set_trace (trace s ++ evs1) (set_tables tabs1 s)))
      as [tabs2 [evs2 [H2 Hev2]]].
    { intros c' inh Hc'. apply Hok. now right. }
    rewrite H2. exists tabs2, (evs1 ++ evs2). split.
    + f_equal. same_state.
    + rewrite forallb_app, Hev1, Hev2. reflexivity.
Qed.

Lemma build_tables_trace s :
  (forall c inh, In c (pending_classes s) -> TableBuilder E c inh <> None) ->
  exists tabs' evs,
    build_tables E s
    = Return tt (set_trace (trace s ++ evs) (set_tables tabs' s))
    /\ forallb is_table_or_tx_event evs = true.
Proof.
  intros Hok. unfold build_tables, bind, gets.
  now apply for_each_build_table_for.
Qed.

(** *** Relationship derivation *)

Lemma RelationshipBuilder_trace c prop s :
  exists rels',
    RelationshipBuilder E c prop s
    = Return tt (set_trace (trace s ++ [RelationshipBuilderCall c (key prop)])
                   (set_relationships rels' s)).
Proof.
  unfold RelationshipBuilder, bind, log, modify, gets, ret. simpl.
  destruct (relationship_target E c (key prop)) as [target|]; simpl;
    [destruct (dict_mem target (version_class_map s)); simpl|];
    eexists; f_equal; same_state.
Qed.

Lemma build_relationships_props c props s :
  exists rels',
    for_each props (fun prop =>
        if String.eqb (key prop) "versions" then ret tt
        else RelationshipBuilder E c prop) s
    = Return tt
        (set_trace
           (trace s ++ map (RelationshipBuilderCall c)
                         (filter (fun k => negb (String.eqb k "versions"))
                                 (map key props)))
           (set_relationships rels' s)).
Proof.
  revert s. induction props as [|prop props IH]; intros s; simpl.
  - exists (relationships s). destruct s. same_state.
  - unfold bind at 1.
    destruct (String.eqb (key prop) "versions") eqn:Hk; simpl.
    + apply IH.
    + destruct (RelationshipBuilder_trace c prop s) as [rels1 H1].
      rewrite H1.
      match goal with
      | |- context [for_each props _ ?s1] =>
          destruct (IH s1) as [rels' Hrest]; rewrite Hrest
      end.
      exists rels'. f_equal. same_state.
Qed.

Lemma build_relationships_for_trace c s :
  exists rels',
    build_relationships_for E c s
    = Return tt (set_trace (trace s ++ relationship_events E [c])
                   (set_relationships rels' s)).
Proof.
  unfold build_relationships_for, relationship_events. simpl.
  destruct (option_versioning E c); simpl.
  - destruct (build_relationships_props c (iterate_properties E c) s)
      as [rels1 H1].
    rewrite H1. exists rels1. f_equal. unfold derived_property_keys.
    same_state.
  - exists (relationships s). destruct s. same_state.
Qed.

Lemma relationship_events_cons c l :
  relationship_events E (c :: l)
  = relationship_events E [c] ++ relationship_events E l.
Proof. unfold relationship_events. simpl. now rewrite app_nil_r. Qed.

Lemma build_relationships_trace version_classes s :
  exists rels',
    build_relationships E version_classes s
    = Return tt (set_trace (trace s ++ relationship_events E version_classes)
                   (set_relationships rels' s)).
Proof.
  unfold build_relationships. revert s.
  induction version_classes as [|c l IH]; intros s.
  - exists (relationships s). destruct s. same_state.
  - simpl for_each. unfold bind.
    destruct (build_relationships_for_trace c s) as [rels1 H1]. rewrite H1.
    match goal with
    | |- context [for_each l _ ?s1] =>
        destruct (IH s1) as [rels' Hrest]; rewrite Hrest
    end.
    exists rels'. rewrite relationship_events_cons. f_equal. same_state.
Qed.

Lemma relationship_events_In version_classes c k :
  In (RelationshipBuilderCall c k) (relationship_events E version_classes)
  <-> In c version_classes /\ option_versioning E c = true
      /\ In k (map key (iterate_properties E c)) /\ k <> "versions"%string.
Proof.
  unfold relationship_events, derived_property_keys.
  rewrite in_flat_map. split.
  - intros [c' [Hc' Hin]]. destruct (option_versioning E c') eqn:Hv;
      [|contradiction].
    apply in_map_iff in Hin. destruct Hin as [k' [Heq Hk']].
    injection Heq as -> ->. apply filter_In in Hk'. destruct Hk' as [Hk' Hne].
    repeat split; auto. intros ->. discriminate.
  - intros [Hc [Hv [Hk Hne]]]. exists c. split; [assumption|].
    rewrite Hv. apply in_map. apply filter_In. split; [assumption|].
    apply negb_true_iff. now apply String.eqb_neq.
Qed.

(** *** The finishing passes *)

Lemma for_each_ext {A} (l : list A) (b1 b2 : A -> @M ShadowTable unit) s :
  (forall x s0, b1 x s0 = b2 x s0) -> for_each l b1 s = for_each l b2 s.
Proof.
  intros Hb. revert s. induction l as [|x l IH]; intros s; simpl.
  - reflexivity.
  - unfold bind. rewrite Hb. destruct (b2 x s); auto.
Qed.

Lemma for_each_log {A} (l : list A) (ev : A -> Event) (skip : A -> bool) s :
  (forall x, is_finishing_event (ev x) = true) ->
  exists evs,
    for_each l (fun x => if skip x then ret tt else log (ev x)) s
    = Return tt (set_trace (trace s ++ evs) s)
    /\ forallb is_finishing_event evs = true.
Proof.
  intros Hev. revert s. induction l as [|x l IH]; intros s; simpl.
  - exists []. split; [|reflexivity]. destruct s. same_state.
  - unfold bind at 1. destruct (skip x); simpl.
    + apply IH.
    + match goal with
      | |- context [for_each l _ ?s1] =>
          destruct (IH s1) as [evs [Hrest Hfin]]; rewrite Hrest
      end.
      exists (ev x :: evs). split; [f_equal; same_state|].
      simpl. now rewrite Hev, Hfin.
Qed.

(** A loop whose body only appends finishing events does so as a whole. *)
Lemma for_each_finishing {A} (l : list A)
    (body : A -> @M ShadowTable unit) s :
  (forall x s0, exists evs,
      body x s0 = Return tt (set_trace (trace s0 ++ evs) s0)
      /\ forallb is_finishing_event evs = true) ->
  exists evs,
    for_each l body s = Return tt (set_trace (trace s ++ evs) s)
    /\ forallb is_finishing_event evs = true.
Proof.
  intros Hbody. revert s. induction l as [|x l IH]; intros s; simpl.
  - exists []. split; [|reflexivity]. destruct s. same_state.
  - unfold bind. destruct (Hbody x s) as [evs1 [H1 Hf1]]. rewrite H1.
    destruct (IH (set_trace (trace s ++ evs1) s)) as [evs2 [H2 Hf2]].
    rewrite H2. exists (evs1 ++ evs2). split; [f_equal; same_state|].
    now rewrite forallb_app, Hf1, Hf2.
Qed.

Lemma create_column_aliases_trace l s :
  exists evs,
    create_column_aliases E l s = Return tt (set_trace (trace s ++ evs) s)
    /\ forallb is_finishing_event evs = true.
Proof.
  unfold create_column_aliases. apply for_each_finishing. intros c s0.
  unfold bind, gets. simpl.
  destruct (dict_get c (version_class_map s0)) as [version_class|].
  - destruct (for_each_log (columns E c)
                (fun kc => ColumnAliasAdded c (fst kc))
                (fun kc => negb (negb (String.eqb (fst kc) (snd kc))
                                 && shadow_has_column E
                                      (vc_table version_class) (snd kc)))
                s0 (fun _ => eq_refl)) as [evs [Hrun Hfin]].
    exists evs. split; [|assumption]. rewrite <- Hrun.
    apply for_each_ext. intros kc s1.
    destruct (String.eqb (fst kc) (snd kc));
      destruct (shadow_has_column E (vc_table version_class) (snd kc));
      reflexivity.
  - exists []. split; [|reflexivity]. destruct s0. same_state.
Qed.

(** *** Finishing passes that may raise *)

Lemma same_trace s : s = set_trace (trace s ++ []) s.
Proof. destruct s. same_state. Qed.

Lemma appends_only_ret P : appends_only P (@ret ShadowTable unit tt).
Proof.
  intros s. exists []. split; [reflexivity|]. left. unfold ret. f_equal.
  apply same_trace.
Qed.

Lemma appends_only_raise P e : appends_only P (@raise ShadowTable unit e).
Proof.
  intros s. exists []. split; [reflexivity|]. right. exists e.
  unfold raise. f_equal. apply same_trace.
Qed.

Lemma appends_only_log (P : Event -> bool) ev :
  P ev = true -> appends_only P (@log ShadowTable ev).
Proof.
  intros Hev s. exists [ev]. split; [simpl; now rewrite Hev|]. now left.
Qed.

Lemma appends_only_seq P (m1 m2 : @M ShadowTable unit) :
  appends_only P m1 -> appends_only P m2 -> appends_only P (m1 ;; m2).
Proof.
  intros H1 H2 s. destruct (H1 s) as [evs1 [Hp1 [Hr|[e Hr]]]].
  - destruct (H2 (set_trace (trace s ++ evs1) s)) as [evs2 [Hp2 Hout]].
    exists (evs1 ++ evs2). split; [now rewrite forallb_app, Hp1, Hp2|].
    unfold bind. rewrite Hr.
    destruct Hout as [Hr2|[e Hr2]]; rewrite Hr2; [left | right; exists e];
      f_equal; same_state.
  - exists evs1. split; [exact Hp1|]. right. exists e.
    unfold bind. now rewrite Hr.
Qed.

Lemma appends_only_for_each {A} P (l : list A)
    (body : A -> @M ShadowTable unit) :
  (forall x, appends_only P (body x)) -> appends_only P (for_each l body).
Proof.
  intros Hb. induction l as [|x l IH]; simpl.
  - apply appends_only_ret.
  - apply appends_only_seq; [apply Hb | exact IH].
Qed.

Lemma appends_only_version_class P c (k : @M ShadowTable unit) :
  appends_only P k -> appends_only P (_ <- version_class c ;; k).
Proof.
  intros Hk s. unfold version_class, bind, gets.
  destruct (dict_get c (version_class_map s)); simpl.
  - apply Hk.
  - exists []. split; [reflexivity|]. right. exists ClassNotVersioned.
    unfold raise. f_equal. apply same_trace.
Qed.

Lemma enable_active_history_appends l :
  appends_only is_finishing_event (enable_active_history E l).
Proof.
  unfold enable_active_history. apply appends_only_for_each. intros c.
  apply appends_only_for_each. intros prop.
  destruct (concrete_inherited prop); [apply appends_only_ret|].
  destruct (instrumented prop);
    [now apply appends_only_log | apply appends_only_raise].
Qed.

Lemma create_column_aliases_appends l :
  appends_only is_finishing_event (create_column_aliases E l).
Proof.
  intros s. destruct (create_column_aliases_trace l s) as [evs [Hrun Hfin]].
  exists evs. split; [exact Hfin | now left].
Qed.

Lemma create_association_proxies_appends l :
  appends_only is_finishing_event (create_association_proxies E l).
Proof.
  unfold create_association_proxies. apply appends_only_for_each. intros c.
  apply appends_only_for_each. intros k.
  apply appends_only_version_class. now apply appends_only_log.
Qed.

Lemma create_hybrid_properties_appends l :
  appends_only is_finishing_event (create_hybrid_properties E l).
Proof.
  unfold create_hybrid_properties. apply appends_only_for_each. intros c.
  apply appends_only_for_each. intros k.
  apply appends_only_version_class. now apply appends_only_log.
Qed.

(** The four finishing passes in sequence. *)
Lemma finishing_appends l :
  appends_only is_finishing_event
    (enable_active_history E l ;;
     create_column_aliases E l ;;
     create_association_proxies E l ;;
     create_hybrid_properties E l).
Proof.
  apply appends_only_seq; [apply enable_active_history_appends|].
  apply appends_only_seq; [apply create_column_aliases_appends|].
  apply appends_only_seq; [apply create_association_proxies_appends|].
  apply create_hybrid_properties_appends.
Qed.

(** *** Phases that call the hooks

    [reenter] is what a re-entering hook calls; while the flag is up it
    returns at once. *)

Variable reenter : @M ShadowTable unit.
Hypothesis reenter_collapses :
  forall s, in_handler s = true -> reenter s = Return tt s.

Lemma run_hook_trace ev b s :
  in_handler s = true -> b <> Fails ->
  run_hook reenter ev b s = Return tt (set_trace (trace s ++ [ev]) s).
Proof.
  intros Hs Hb. unfold run_hook, bind, log, modify, ret. simpl.
  destruct b; [reflexivity | | congruence].
  apply reenter_collapses. exact Hs.
Qed.

Lemma build_transaction_class_drained s :
  pending_classes s = [] -> build_transaction_class E reenter s = Return tt s.
Proof.
  intros Hp. unfold build_transaction_class, bind, gets. now rewrite Hp.
Qed.

Lemma build_transaction_class_run c rest b s :
  in_handler s = true ->
  pending_classes s = c :: rest ->
  get_declarative_base E c = Some b ->
  after_build_tx_class E <> Fails ->
  build_transaction_class E reenter s
  = Return tt
      (set_trace (trace s ++ transaction_events b (transaction_cls s))
         (set_transaction_cls (transaction_after b (transaction_cls s))
            (set_declarative_base (Some b) s))).
Proof.
  intros Hs Hp Hb Hhook.
  unfold build_transaction_class, bind, gets. rewrite Hp, Hb.
  unfold modify, create_transaction_model, bind, gets, log, modify, ret.
  simpl. destruct (transaction_cls s) as [tx|] eqn:Htx; simpl.
  - rewrite run_hook_trace; [|exact Hs|exact Hhook].
    f_equal. destruct s. simpl in *. subst. same_state.
  - rewrite run_hook_trace; [|exact Hs|exact Hhook].
    f_equal. same_state.
Qed.

Lemma build_transaction_class_trace s :
  in_handler s = true ->
  (forall c rest, pending_classes s = c :: rest ->
                  get_declarative_base E c <> None) ->
  after_build_tx_class E <> Fails ->
  exists tx' base' evs,
    build_transaction_class E reenter s
    = Return tt (set_trace (trace s ++ evs)
                   (set_transaction_cls tx' (set_declarative_base base' s)))
    /\ forallb is_table_or_tx_event evs = true
    /\ (pending_classes s <> [] -> tx' <> None).
Proof.
  intros Hs Hbase Hhook. destruct (pending_classes s) as [|c rest] eqn:Hp.
  - exists (transaction_cls s), (declarative_base s), [].
    rewrite (build_transaction_class_drained s Hp).
    split; [f_equal; destruct s; same_state|]. split; [reflexivity|].
    congruence.
  - destruct (get_declarative_base E c) as [b|] eqn:Hb;
      [|now destruct (Hbase c rest eq_refl)].
    exists (transaction_after b (transaction_cls s)), (Some b),
      (transaction_events b (transaction_cls s)).
    rewrite (build_transaction_class_run c rest b s Hs Hp Hb Hhook).
    split; [reflexivity|]. split.
    + unfold transaction_events. now destruct (transaction_cls s).
    + intros _. unfold transaction_after. now destruct (transaction_cls s).
Qed.

(** *** Model building *)

Lemma dict_mem_set {V} (k k' : cls) (v : V) (d : dict V) :
  dict_mem k' (dict_set k v d) = Nat.eqb k' k || dict_mem k' d.
Proof.
  unfold dict_mem, dict_keys.
  induction d as [|[k0 v0] d IH]; simpl.
  - now rewrite orb_false_r.
  - destruct (Nat.eqb k k0) eqn:Hk; simpl.
    + apply Nat.eqb_eq in Hk. subst k0.
      now destruct (Nat.eqb k' k); simpl.
    + rewrite IH. destruct (Nat.eqb k' k0), (Nat.eqb k' k); reflexivity.
Qed.

Lemma built_models_cons tabs c l :
  built_models E tabs (c :: l)
  = built_models E tabs [c] ++ built_models E tabs l.
Proof.
  unfold built_models. simpl.
  now destruct (option_versioning E c
                && match closest_matching_table E tabs c with
                   | Some _ => true
                   | None => false
                   end).
Qed.

Lemma model_events_app l1 l2 :
  model_events (l1 ++ l2) = model_events l1 ++ model_events l2.
Proof. unfold model_events. apply flat_map_app. Qed.

Lemma mem_app c (l1 l2 : list cls) : mem c (l1 ++ l2) = mem c l1 || mem c l2.
Proof. unfold mem. apply existsb_app. Qed.

End Phases.

(** ** Whole passes *)

Section Passes.

Context {ShadowTable : Type}.
Variable E : Env ShadowTable.
Implicit Types (s : State ShadowTable).

Lemma bind_Return {A B} (m : M A) (k : A -> @M ShadowTable B) s a s' :
  m s = Return a s' -> bind m k s = k a s'.
Proof. intros H. unfold bind. now rewrite H. Qed.

Lemma bind_gets {A B} (f : State ShadowTable -> A)
    (k : A -> @M ShadowTable B) s :
  bind (gets f) k s = k (f s) s.
Proof. reflexivity. Qed.

Lemma bind_modify {B} (f : State ShadowTable -> State ShadowTable)
    (k : unit -> @M ShadowTable B) s :
  bind (modify f) k s = k tt (f s).
Proof. reflexivity. Qed.

Lemma unfold_configure fuel s :
  in_handler s = false ->
  configure_versioned_classes E (S (S fuel)) s
  = match configure_handler E (configure_versioned_classes E (S fuel))
            (set_in_handler true s) with
    | Return _ s' => Return tt (set_in_handler false s')
    | Raised e s' => Raised e s'
    | OutOfFuel => OutOfFuel
    end.
Proof.
  intros Hflag.
  change (configure_versioned_classes E (S (S fuel)))
    with (prevent_reentry
            (configure_handler E (configure_versioned_classes E (S fuel)))).
  unfold prevent_reentry. now rewrite Hflag.
Qed.

Lemma lower_flag_without_models s tabs' tx' base' tr :
  in_handler s = false ->
  set_in_handler false
    (set_pending_classes []
       (set_trace tr
          (set_transaction_cls tx'
             (set_declarative_base base'
                (set_tables tabs' (set_in_handler true s))))))
  = set_pending_classes []
      (set_trace tr
         (set_transaction_cls tx'
            (set_declarative_base base' (set_tables tabs' s)))).
Proof. intros Hflag. destruct s. simpl in Hflag. subst. reflexivity. Qed.

(** The pass up to the test of [create_models]. *)
Lemma tables_and_transaction fuel s :
  in_handler s = true ->
  (forall c inh, In c (pending_classes s) -> TableBuilder E c inh <> None) ->
  (forall c rest, pending_classes s = c :: rest ->
                  get_declarative_base E c <> None) ->
  after_build_tx_class E <> Fails ->
  exists tabs' tx' base' evs,
    (build_tables E ;;
     build_transaction_class E (configure_versioned_classes E (S fuel))) s
    = Return tt (set_trace (trace s ++ evs)
                   (set_transaction_cls tx'
                      (set_declarative_base base' (set_tables tabs' s))))
    /\ forallb is_table_or_tx_event evs = true
    /\ (exists s1, build_tables E s = Return tt s1 /\ tables s1 = tabs')
    /\ (pending_classes s <> [] -> tx' <> None).
Proof.
  intros Hs Hok Hbase Hhook.
  destruct (build_tables_trace E s Hok) as [tabs' [evs1 [H1 Hev1]]].
  destruct (build_transaction_class_trace E
              (configure_versioned_classes E (S fuel))
              (nested_invocation_returns E fuel)
              (set_trace (trace s ++ evs1) (set_tables tabs' s)))
    as [tx' [base' [evs2 [H2 [Hev2 Htx]]]]]; try assumption.
  exists tabs', tx', base', (evs1 ++ evs2).
  rewrite (bind_Return _ _ _ _ _ H1), H2.
  split; [f_equal; same_state|].
  split; [now rewrite forallb_app, Hev1, Hev2|].
  split; [|exact Htx].
  eexists. split; [exact H1 | reflexivity].
Qed.

Lemma flat_map_nil {A B} (f : A -> list B) (l : list A) :
  (forall x, In x l -> f x = []) -> flat_map f l = [].
Proof.
  intros H. induction l as [|x l IH]; simpl; [reflexivity|].
  rewrite (H x (or_introl eq_refl)). apply IH. intros y Hy. apply H. now right.
Qed.

Lemma model_calls_model_events l : model_calls (model_events l) = l.
Proof. induction l as [|c l IH]; simpl; [reflexivity | now rewrite IH]. Qed.

Lemma notified_model_events l : notified_classes (model_events l) = l.
Proof. induction l as [|c l IH]; simpl; [reflexivity | now rewrite IH]. Qed.

Lemma no_model_event_calls evs :
  forallb (fun e => negb (is_model_event e)) evs = true ->
  model_calls evs = [] /\ notified_classes evs = [].
Proof.
  intros H. rewrite forallb_forall in H.
  split; apply flat_map_nil; intros e He; specialize (H e He);
    destruct e; simpl in *; congruence.
Qed.

Lemma forallb_impl {A} (p q : A -> bool) (l : list A) :
  (forall x, p x = true -> q x = true) ->
  forallb p l = true -> forallb q l = true.
Proof.
  intros Hpq. rewrite !forallb_forall. intros H x Hx. apply Hpq, H, Hx.
Qed.

Lemma built_models_NoDup tabs pending :
  NoDup pending -> NoDup (built_models E tabs pending).
Proof. intros H. unfold built_models. now apply NoDup_filter. Qed.

Lemma table_or_tx_no_model evs :
  forallb is_table_or_tx_event evs = true ->
  forallb (fun e => negb (is_model_event e)) evs = true.
Proof. apply forallb_impl. intros e. now destruct e. Qed.

Lemma models_notice_no_model pending :
  forallb (fun e => negb (is_model_event e)) (models_notice pending) = true.
Proof. now destruct pending. Qed.

(** C6, as the code has it.  [build_transaction_class] does nothing when
    nothing is pending.  Otherwise, inside a pass, it takes the declarative
    base of the first pending class, raising when there is none, rebinds
    [manager.declarative_base] to it, and fires the transaction-built
    notification, every time.  A Transaction entity that exists is kept and
    none is constructed; only when there is none is one constructed, from
    that base. *)
Theorem build_transaction_class_spec fuel s :
  (pending_classes s = [] ->
   build_transaction_class E (configure_versioned_classes E (S fuel)) s
   = Return tt s)
  /\ (forall c rest,
        pending_classes s = c :: rest -> get_declarative_base E c = None ->
        build_transaction_class E (configure_versioned_classes E (S fuel)) s
        = Raised ConfigurationError s)
  /\ (forall c rest b tx,
        in_handler s = true -> after_build_tx_class E <> Fails ->
        pending_classes s = c :: rest -> get_declarative_base E c = Some b ->
        transaction_cls s = Some tx ->
        build_transaction_class E (configure_versioned_classes E (S fuel)) s
        = Return tt (set_trace (trace s ++ [AfterBuildTxClass])
                       (set_declarative_base (Some b) s)))
  /\ (forall c rest b,
        in_handler s = true -> after_build_tx_class E <> Fails ->
        pending_classes s = c :: rest -> get_declarative_base E c = Some b ->
        transaction_cls s = None ->
        build_transaction_class E (configure_versioned_classes E (S fuel)) s
        = Return tt
            (set_trace (trace s ++ [TransactionModelConstructed b;
                                    AfterBuildTxClass])
               (set_transaction_cls (Some (mkTx b))
                  (set_declarative_base (Some b) s)))).
Proof.
  split; [apply build_transaction_class_drained|].
  split.
  { intros c rest Hp Hb. unfold build_transaction_class, bind, gets.
    now rewrite Hp, Hb. }
  split.
  - intros c rest b tx Hs Hhook Hp Hb Htx.
    rewrite (build_transaction_class_run E _
               (nested_invocation_returns E fuel) c rest b s Hs Hp Hb Hhook).
    rewrite Htx. f_equal. destruct s. simpl in *. subst. same_state.
  - intros c rest b Hs Hhook Hp Hb Htx.
    rewrite (build_transaction_class_run E _
               (nested_invocation_returns E fuel) c rest b s Hs Hp Hb Hhook).
    rewrite Htx. reflexivity.
Qed.

(** C7, as the code has it.  [build_relationships] returns, touching only
    the relationships and the trace, and the RelationshipBuilder calls it
    makes are, class by class in the order given, one per mapped property
    whose key is not [versions]: a call is made for [(c, k)] exactly when
    [c] is in the list with versioning enabled and [k] is the key of a
    mapped property of [c] other than [versions].  The key [transaction]
    is not set apart. *)
Theorem build_relationships_spec version_classes s :
  (exists rels',
      build_relationships E version_classes s
      = Return tt
          (set_trace (trace s ++ relationship_events E version_classes)
             (set_relationships rels' s)))
  /\ (forall c k,
        In (RelationshipBuilderCall c k)
           (relationship_events E version_classes)
        <-> In c version_classes /\ option_versioning E c = true
            /\ In k (map key (iterate_properties E c))
            /\ k <> "versions"%string).
Proof.
  split; [apply build_relationships_trace | apply relationship_events_In].
Qed.

End Passes.

Lemma build_transaction_class_spec_witness :
  build_transaction_class (Blog.env Blog.all Reenters)
    (configure_versioned_classes (Blog.env Blog.all Reenters) 1)
    (set_in_handler true (Blog.manager [Blog.User] true))
  = Return tt
      (set_trace [TransactionModelConstructed 0; AfterBuildTxClass]
         (set_transaction_cls (Some (mkTx 0))
            (set_declarative_base (Some 0)
               (set_in_handler true (Blog.manager [Blog.User] true))))).
Proof.
  destruct (build_transaction_class_spec (Blog.env Blog.all Reenters) 0
              (set_in_handler true (Blog.manager [Blog.User] true)))
    as [_ [_ [_ Hnew]]].
  apply (Hnew Blog.User [] 0); try reflexivity. discriminate.
Defined.

Lemma build_relationships_spec_witness :
  In (RelationshipBuilderCall Blog.Article "author")
     (relationship_events (Blog.env Blog.all Quiet) [Blog.Article]).
Proof.
  destruct (build_relationships_spec (Blog.env Blog.all Quiet)
              [Blog.Article] (Blog.manager [] true)) as [_ Hiff].
  apply Hiff. repeat split.
  - now left.
  - simpl. auto.
  - discriminate.
Defined.

(** C6 fails as stated: with a Transaction entity in place and [User]
    pending, the step is not a no-op.  It rebinds the declarative base and
    fires the transaction-built notification again; over two passes the
    entity is constructed once and the notification fires twice. *)
Lemma build_transaction_class_refires :
  (exists s',
      build_transaction_class (Blog.env Blog.all Quiet)
        (configure_versioned_classes (Blog.env Blog.all Quiet) 1)
        (set_transaction_cls (Some (mkTx 0)) (Blog.manager [Blog.User] true))
      = Return tt s'
      /\ trace s' = [AfterBuildTxClass]
      /\ declarative_base s' = Some 0
      /\ s' <> set_transaction_cls (Some (mkTx 0))
                 (Blog.manager [Blog.User] true))
  /\ (exists s1 s2,
        configure_versioned_classes (Blog.env Blog.all Quiet) 2
          (Blog.manager [Blog.Article] true) = Return tt s1
        /\ configure_versioned_classes (Blog.env Blog.all Quiet) 2
             (set_pending_classes [Blog.User] s1) = Return tt s2
        /\ filter is_tx_construction (trace s2)
           = [TransactionModelConstructed 0]
        /\ filter is_tx_notice (trace s2)
           = [AfterBuildTxClass; AfterBuildTxClass]).
Proof.
  split.
  - eexists. split; [vm_compute; reflexivity|].
    repeat split. discriminate.
  - eexists. eexists. split; [vm_compute; reflexivity|].
    split; [vm_compute; reflexivity|]. split; reflexivity.
Qed.

(** C7 fails as stated: on a class whose mapped properties are [id],
    [transaction], [versions] and [author], RelationshipBuilder is called
    for [transaction]; only [versions] is passed over. *)
Lemma build_relationships_derives_transaction :
  exists s',
    build_relationships (Blog.env Blog.all Quiet) [Blog.Article]
      (Blog.manager [] true) = Return tt s'
    /\ trace s' = [RelationshipBuilderCall Blog.Article "id";
                   RelationshipBuilderCall Blog.Article "transaction";
                   RelationshipBuilderCall Blog.Article "author"].
Proof.
  eexists. split; [vm_compute; reflexivity | reflexivity].
Qed.

(** * Further properties of builder.py *)

(** ** Class instrumentation *)

Section InstrumentFacts.

Context {ShadowTable : Type}.
Variable D : Declared.
Implicit Types (r : Registry ShadowTable) (c : cls).

Lemma instrument_cases c r :
  instrument_versioned_classes D c r = r
  \/ (options_versioning (manager_state r) = true
      /\ has_versioned D c = true
      /\ versioned_class_set D c = false
      /\ mem c (pending_classes (manager_state r)) = false
      /\ instrument_versioned_classes D c r
         = mkRegistry
             (set_pending_classes
                (pending_classes (manager_state r) ++ [c]) (manager_state r))
             (Some (metadata_of D c))).
Proof.
  unfold instrument_versioned_classes.
  destruct (options_versioning (manager_state r)); simpl; [|now left].
  destruct (has_versioned D c); [|now left].
  destruct (versioned_class_set D c); simpl; [now left|].
  destruct (mem c (pending_classes (manager_state r))); simpl; [now left|].
  right. repeat split.
Qed.

Lemma instrument_appends c r :
  has_versioned D c = true -> versioned_class_set D c = false ->
  options_versioning (manager_state r) = true ->
  mem c (pending_classes (manager_state r)) = false ->
  instrument_versioned_classes D c r
  = mkRegistry
      (set_pending_classes
         (pending_classes (manager_state r) ++ [c]) (manager_state r))
      (Some (metadata_of D c)).
Proof.
  intros H1 H2 H3 H4. unfold instrument_versioned_classes.
  now rewrite H3, H1, H2, H4.
Qed.

Lemma instrument_all_app l1 l2 r :
  instrument_all D (l1 ++ l2) r = instrument_all D l2 (instrument_all D l1 r).
Proof. unfold instrument_all. apply fold_left_app. Qed.

(** What a run of the hook over [l] does to the manager. *)
Lemma instrument_all_pending l r :
  NoDup (pending_classes (manager_state r)) ->
  exists added,
    manager_state (instrument_all D l r)
    = set_pending_classes (pending_classes (manager_state r) ++ added)
        (manager_state r)
    /\ incl added l
    /\ NoDup (pending_classes (manager_state r) ++ added).
Proof.
  revert r. induction l as [|c l IH]; intros r Hnd.
  - exists []. simpl. rewrite app_nil_r. split; [|split].
    + destruct (manager_state r). reflexivity.
    + apply incl_refl.
    + exact Hnd.
  - change (instrument_all D (c :: l) r)
      with (instrument_all D l (instrument_versioned_classes D c r)).
    destruct (instrument_cases c r) as [->|[_ [_ [_ [Hmem ->]]]]].
    + destruct (IH r Hnd) as [added [Hst [Hincl Hnd']]].
      exists added. split; [exact Hst|]. split; [|exact Hnd'].
      now apply incl_tl.
    + set (r1 := mkRegistry
                   (set_pending_classes
                      (pending_classes (manager_state r) ++ [c])
                      (manager_state r))
                   (Some (metadata_of D c))).
      assert (Hnd1 : NoDup (pending_classes (manager_state r1))).
      { simpl. apply NoDup_app; [exact Hnd | repeat constructor; auto |].
        intros x Hx [<-|[]]. apply mem_false_notin in Hmem. contradiction. }
      destruct (IH r1 Hnd1) as [added [Hst [Hincl Hnd']]].
      exists (c :: added). simpl in Hst, Hnd'. rewrite <- app_assoc in Hst, Hnd'.
      split; [|split].
      * rewrite Hst. destruct (manager_state r). reflexivity.
      * intros x [<-|Hx]; [now left | right; now apply Hincl].
      * exact Hnd'.
Qed.

Lemma last_cons {A} (a d : A) (l : list A) : last (a :: l) d = last l a.
Proof.
  revert a d. induction l as [|b l IH]; intros a d; [reflexivity|].
  change (last (a :: b :: l) d) with (last (b :: l) d).
  rewrite (IH b d), (IH b a). reflexivity.
Qed.

(** The whole registry after a run of the hook over [l]: the pending list
    and the metadata last written. *)
Lemma instrument_all_registry l r :
  NoDup (pending_classes (manager_state r)) ->
  exists added,
    instrument_all D l r
    = mkRegistry
        (set_pending_classes (pending_classes (manager_state r) ++ added)
           (manager_state r))
        (last (map (fun c => Some (metadata_of D c)) added) (metadata r))
    /\ incl added l
    /\ NoDup (pending_classes (manager_state r) ++ added).
Proof.
  revert r. induction l as [|c l IH]; intros r Hnd.
  - exists []. simpl. rewrite app_nil_r. split; [|split].
    + destruct r as [st md]. destruct st. reflexivity.
    + apply incl_refl.
    + exact Hnd.
  - change (instrument_all D (c :: l) r)
      with (instrument_all D l (instrument_versioned_classes D c r)).
    destruct (instrument_cases c r) as [->|[_ [_ [_ [Hmem ->]]]]].
    + destruct (IH r Hnd) as [added [Hst [Hincl Hnd']]].
      exists added. split; [exact Hst|]. split; [|exact Hnd'].
      now apply incl_tl.
    + set (r1 := mkRegistry
                   (set_pending_classes
                      (pending_classes (manager_state r) ++ [c])
                      (manager_state r))
                   (Some (metadata_of D c))).
      assert (Hnd1 : NoDup (pending_classes (manager_state r1))).
      { simpl. apply NoDup_app; [exact Hnd | repeat constructor; auto |].
        intros x Hx [<-|[]]. apply mem_false_notin in Hmem. contradiction. }
      destruct (IH r1 Hnd1) as [added [Hst [Hincl Hnd']]].
      exists (c :: added). simpl in Hst, Hnd'. rewrite <- app_assoc in Hst, Hnd'.
      split; [|split].
      * rewrite Hst. simpl map. rewrite last_cons. reflexivity.
      * intros x [<-|Hx]; [now left | right; now apply Hincl].
      * exact Hnd'.
Qed.

(** X1: the hook keeps the pending list free of duplicates.  Called for
    the classes of [l] in order, it appends to the pending list classes of
    [l], with no class twice in the result, leaves the other fields of the
    manager's state as they were, and leaves in [manager.metadata] the
    metadata of the last class it appended (the old value if it appended
    none). *)
Theorem instrument_keeps_pending_distinct l r :
  NoDup (pending_classes (manager_state r)) ->
  exists added,
    instrument_all D l r
    = mkRegistry
        (set_pending_classes (pending_classes (manager_state r) ++ added)
           (manager_state r))
        (last (map (fun c => Some (metadata_of D c)) added) (metadata r))
    /\ incl added l
    /\ NoDup (pending_classes (manager_state (instrument_all D l r))).
Proof.
  intros Hnd. destruct (instrument_all_registry l r Hnd)
    as [added [Hst [Hincl Hnd']]].
  exists added. split; [exact Hst|]. split; [exact Hincl|].
  rewrite Hst. exact Hnd'.
Qed.

(** X2: instrumenting a class a second time changes nothing, neither the
    pending list nor the recorded metadata. *)
Theorem instrument_versioned_classes_idempotent c r :
  instrument_versioned_classes D c (instrument_versioned_classes D c r)
  = instrument_versioned_classes D c r.
Proof.
  destruct (instrument_cases c r) as [Heq|[Hv [Hd [Hc [Hmem Heq]]]]].
  - now rewrite !Heq.
  - rewrite Heq. unfold instrument_versioned_classes. simpl.
    rewrite Hv, Hd, Hc. simpl. rewrite mem_app. simpl.
    rewrite Nat.eqb_refl. simpl. now rewrite orb_true_r.
Qed.

End InstrumentFacts.

Lemma instrument_keeps_pending_distinct_witness :
  instrument_all Blog2.declared
    [Blog.Article; Blog.User; Blog.Article; Blog.BlogArticle]
    (Blog2.registry [])
  = mkRegistry
      (Blog.manager [Blog.Article; Blog.User; Blog.BlogArticle] true)
      (Some 7)
  /\ NoDup (pending_classes
              (manager_state
                 (instrument_all Blog2.declared
                    [Blog.Article; Blog.User; Blog.Article; Blog.BlogArticle]
                    (Blog2.registry [])))).
Proof.
  split; [reflexivity|].
  destruct (instrument_keeps_pending_distinct Blog2.declared
              [Blog.Article; Blog.User; Blog.Article; Blog.BlogArticle]
              (Blog2.registry [])) as [added [_ [_ Hnd]]].
  - constructor.
  - exact Hnd.
Defined.

(** ** More on the closest-table resolver *)

Section ResolverFacts.

Context {ShadowTable : Type}.
Variable E : Env ShadowTable.
Implicit Types (tabs : dict ShadowTable) (model k c : cls).

Lemma closest_matching_table_cases tabs model :
  (closest_matching_table E tabs model = None
   /\ forall k, dict_mem k tabs = true -> issubclass E model k = false)
  \/ (exists k t,
         closest_matching_table E tabs model = Some t
         /\ dict_mem k tabs = true /\ issubclass E model k = true
         /\ dict_get k tabs = Some t).
Proof.
  unfold closest_matching_table.
  destruct (dict_mem model tabs) eqn:Hmem.
  - right. destruct (dict_mem_get _ _ Hmem) as [t Ht].
    exists model, t. rewrite Ht. repeat split; auto using issubclass_refl.
  - set (subclasses := filter (fun c => issubclass E model c) (dict_keys tabs)).
    destruct (filter (fun c => mem c subclasses) (getmro E model))
      as [|c0 rest] eqn:Hf.
    + left. split; [reflexivity|]. intros k Hk.
      destruct (issubclass E model k) eqn:Hsub; [|reflexivity].
      assert (Hin : In k (filter (fun c => mem c subclasses) (getmro E model))).
      { apply filter_In. split; [now apply issubclass_mro|].
        unfold subclasses. rewrite candidate_on_mro; [assumption|].
        now apply issubclass_mro. }
      rewrite Hf in Hin. contradiction.
    + right.
      assert (Hin : In c0 (filter (fun c => mem c subclasses) (getmro E model)))
        by (rewrite Hf; now left).
      apply filter_In in Hin. destruct Hin as [Hmro Hc0].
      unfold subclasses in Hc0. rewrite candidate_on_mro in Hc0 by assumption.
      destruct (dict_mem_get _ _ Hc0) as [t Ht].
      exists c0, t. rewrite Ht. repeat split; auto.
      now apply issubclass_mro.
Qed.

(** X3: the resolver finds a table exactly when some key of the table map
    is a supertype of the model: it returns None if and only if no key is,
    and a table it returns is the entry of a key that is a supertype. *)
Theorem closest_matching_table_complete tabs model :
  (closest_matching_table E tabs model = None
   <-> forall k, dict_mem k tabs = true -> issubclass E model k = false)
  /\ (forall t, closest_matching_table E tabs model = Some t ->
        exists k, dict_mem k tabs = true /\ issubclass E model k = true
                  /\ dict_get k tabs = Some t).
Proof.
  destruct (closest_matching_table_cases tabs model)
    as [[Hnone Hall]|[k [t [Hsome [Hk [Hsub Hget]]]]]].
  - split; [split; auto|]. intros t Ht. congruence.
  - split.
    + split; [congruence|]. intros Hall. apply Hall in Hk. congruence.
    + intros t' Ht'. exists k. repeat split; auto. congruence.
Qed.

End ResolverFacts.

Lemma closest_matching_table_complete_witness :
  closest_matching_table (Blog.env Blog.all Quiet)
    [(Blog.User, [Blog.User])] Blog.BlogArticle = None
  /\ exists k,
       dict_mem k [(Blog.Article, [Blog.Article])] = true
       /\ issubclass (Blog.env Blog.all Quiet) Blog.BlogArticle k = true
       /\ dict_get k [(Blog.Article, [Blog.Article])] = Some [Blog.Article].
Proof.
  split.
  - apply (closest_matching_table_complete (Blog.env Blog.all Quiet)
             [(Blog.User, [Blog.User])] Blog.BlogArticle).
    intros k Hk. unfold dict_mem in Hk. simpl in Hk.
    rewrite orb_false_r in Hk. apply Nat.eqb_eq in Hk. now subst k.
  - apply (closest_matching_table_complete (Blog.env Blog.all Quiet)
             [(Blog.Article, [Blog.Article])] Blog.BlogArticle).
    reflexivity.
Defined.

(** ** More on table derivation *)

Section TableFacts.

Context {ShadowTable : Type}.
Variable E : Env ShadowTable.
Implicit Types (s : State ShadowTable) (c k : cls).

Lemma build_table_for_skips c s :
  derives_table E c = false -> build_table_for E c s = Return tt s.
Proof.
  unfold derives_table, build_table_for. intros H.
  destruct (option_versioning E c); simpl in *; [|reflexivity].
  now rewrite H.
Qed.

Lemma build_table_for_derives c s :
  derives_table E c = true ->
  build_table_for E c s
  = match find_inherited E (tables s) c with
    | Some (k, inherited) =>
        match TableBuilder E c (Some inherited) with
        | Some v =>
            Return tt (set_trace (trace s ++ [TableBuilderCall c (Some k)])
                         (set_tables (dict_set k v (tables s)) s))
        | None =>
            Raised ConfigurationError
              (set_trace (trace s ++ [TableBuilderCall c (Some k)]) s)
        end
    | None =>
        match TableBuilder E c None with
        | Some v =>
            Return tt (set_trace (trace s ++ [TableBuilderCall c None])
                         (set_tables (dict_set c v (tables s)) s))
        | None =>
            Raised ConfigurationError
              (set_trace (trace s ++ [TableBuilderCall c None]) s)
        end
    end.
Proof.
  unfold derives_table, build_table_for. intros H.
  apply andb_prop in H. destruct H as [Hv Hc]. rewrite Hv, Hc. simpl.
  unfold bind, gets. simpl.
  destruct (find_inherited E (tables s) c) as [[k inh]|];
    unfold call_TableBuilder, bind, log, modify, ret, raise; simpl.
  - destruct (TableBuilder E c (Some inh)); reflexivity.
  - destruct (TableBuilder E c None); reflexivity.
Qed.

(** A class that finds no entry to inherit from is not a key itself. *)
Lemma find_inherited_none_fresh tabs c :
  find_inherited E tabs c = None -> dict_mem c tabs = false.
Proof.
  intros Hf. destruct (dict_mem c tabs) eqn:Hm; [|reflexivity].
  exfalso. apply (find_inherited_none E tabs c c Hf Hm (issubclass_refl E c)).
  reflexivity.
Qed.

Lemma find_inherited_of_key tabs c :
  dict_mem c tabs = true ->
  exists k inherited, find_inherited E tabs c = Some (k, inherited).
Proof.
  intros Hm. destruct (find_inherited E tabs c) as [[k inh]|] eqn:Hf.
  - now exists k, inh.
  - apply find_inherited_none_fresh in Hf. congruence.
Qed.

(** X4: a class that already has an entry in the table map is never
    derived afresh.  TableBuilder is handed an existing entry as merge
    base, that of the first key that is a supertype on the same physical
    table (the class itself if no earlier key is), the result overwrites
    that entry, and the keys of the table map stay as they were; if
    TableBuilder raises, only the trace has changed. *)
Theorem build_table_for_existing_entry c s :
  dict_mem c (tables s) = true ->
  derives_table E c = true ->
  exists k inherited,
    find_inherited E (tables s) c = Some (k, inherited)
    /\ dict_mem k (tables s) = true
    /\ issubclass E c k = true
    /\ table_of E k = table_of E c
    /\ (forall v, TableBuilder E c (Some inherited) = Some v ->
          build_table_for E c s
          = Return tt (set_trace (trace s ++ [TableBuilderCall c (Some k)])
                         (set_tables (dict_set k v (tables s)) s))
          /\ dict_keys (dict_set k v (tables s)) = dict_keys (tables s)
          /\ dict_get k (dict_set k v (tables s)) = Some v)
    /\ (TableBuilder E c (Some inherited) = None ->
          build_table_for E c s
          = Raised ConfigurationError
              (set_trace (trace s ++ [TableBuilderCall c (Some k)]) s)).
Proof.
  intros Hm Hd. destruct (find_inherited_of_key (tables s) c Hm)
    as [k [inh Hf]].
  exists k, inh. destruct (find_inherited_some E _ _ _ _ Hf) as [Hk [Hsub Ht]].
  repeat split; auto.
  - rewrite (build_table_for_derives c s Hd), Hf, H. reflexivity.
  - now apply dict_keys_set_mem.
  - apply dict_get_set_same.
  - intros Hb. rewrite (build_table_for_derives c s Hd), Hf, Hb. reflexivity.
Qed.

Lemma final_state_bind {A B} (m : M A) (k : A -> @M ShadowTable B) s :
  final_state (bind m k s)
  = match m s with
    | Return a s1 => final_state (k a s1)
    | Raised _ s1 => Some s1
    | OutOfFuel => None
    end.
Proof. unfold bind. now destruct (m s). Qed.

(** One iteration of [build_tables], however it exits. *)
Lemma build_table_for_grows c s :
  exists tabs' new evs,
    (build_table_for E c s
     = Return tt (set_trace (trace s ++ evs) (set_tables tabs' s))
     \/ exists e, build_table_for E c s
                  = Raised e (set_trace (trace s ++ evs) (set_tables tabs' s)))
    /\ dict_keys tabs' = dict_keys (tables s) ++ new
    /\ (forall x, In x new ->
          x = c /\ derives_table E c = true /\ dict_mem c (tables s) = false)
    /\ forallb is_table_or_tx_event evs = true.
Proof.
  destruct (derives_table E c) eqn:Hd.
  - rewrite (build_table_for_derives c s Hd).
    destruct (find_inherited E (tables s) c) as [[k inh]|] eqn:Hf.
    + destruct (find_inherited_some E _ _ _ _ Hf) as [Hk _].
      destruct (TableBuilder E c (Some inh)) as [v|].
      * exists (dict_set k v (tables s)), [], [TableBuilderCall c (Some k)].
        split; [now left|]. rewrite app_nil_r.
        split; [now apply dict_keys_set_mem|]. split; [intros x []|reflexivity].
      * exists (tables s), [], [TableBuilderCall c (Some k)].
        split; [right; exists ConfigurationError; f_equal;
                destruct s; same_state|].
        rewrite app_nil_r. split; [reflexivity|].
        split; [intros x []|reflexivity].
    + pose proof (find_inherited_none_fresh _ _ Hf) as Hfresh.
      destruct (TableBuilder E c None) as [v|].
      * exists (dict_set c v (tables s)), [c], [TableBuilderCall c None].
        split; [now left|].
        split; [now apply dict_keys_set_new|].
        split; [|reflexivity]. intros x [<-|[]]. auto.
      * exists (tables s), [], [TableBuilderCall c None].
        split; [right; exists ConfigurationError; f_equal;
                destruct s; same_state|].
        rewrite app_nil_r. split; [reflexivity|].
        split; [intros x []|reflexivity].
  - rewrite (build_table_for_skips c s Hd).
    exists (tables s), [], []. rewrite !app_nil_r.
    split; [left; f_equal; destruct s; same_state|].
    split; [reflexivity|]. split; [intros x []|reflexivity].
Qed.

Lemma dict_mem_keys_app {V} (d d' : dict V) (new : list cls) k :
  dict_keys d' = dict_keys d ++ new ->
  dict_mem k d' = dict_mem k d || mem k new.
Proof. unfold dict_mem. intros ->. apply existsb_app. Qed.

Lemma for_each_build_table_for_grows l s :
  exists s' tabs' new evs,
    final_state (for_each l (build_table_for E) s) = Some s'
    /\ s' = set_trace (trace s ++ evs) (set_tables tabs' s)
    /\ dict_keys tabs' = dict_keys (tables s) ++ new
    /\ (forall x, In x new ->
          In x l /\ derives_table E x = true /\ dict_mem x (tables s) = false)
    /\ forallb is_table_or_tx_event evs = true.
Proof.
  revert s. induction l as [|c l IH]; intros s.
  - exists s, (tables s), [], []. simpl. rewrite !app_nil_r.
    split; [reflexivity|]. split; [destruct s; same_state|].
    split; [reflexivity|]. split; [intros x []|reflexivity].
  - simpl for_each. rewrite final_state_bind.
    destruct (build_table_for_grows c s)
      as [tabs1 [new1 [evs1 [Hout [Hk1 [Hnew1 Hev1]]]]]].
    destruct Hout as [Hret|[e Hraise]].
    + rewrite Hret.
      destruct (IH (set_trace (trace s ++ evs1) (set_tables tabs1 s)))
        as [s' [tabs2 [new2 [evs2 [Hfin [Hs' [Hk2 [Hnew2 Hev2]]]]]]]].
      exists s', tabs2, (new1 ++ new2), (evs1 ++ evs2).
      split; [exact Hfin|]. split; [rewrite Hs'; same_state|].
      simpl in Hk2. split; [rewrite Hk2, Hk1; now rewrite app_assoc|].
      split; [|now rewrite forallb_app, Hev1, Hev2].
      intros x Hx. apply in_app_or in Hx. destruct Hx as [Hx|Hx].
      * destruct (Hnew1 x Hx) as [-> [Hd Hm]]. split; [now left | auto].
      * destruct (Hnew2 x Hx) as [Hin [Hd Hm]]. simpl in Hm.
        split; [now right|]. split; [exact Hd|].
        rewrite (dict_mem_keys_app (tables s) tabs1 new1 x Hk1) in Hm.
        now apply orb_false_elim in Hm.
    + rewrite Hraise. simpl.
      exists (set_trace (trace s ++ evs1) (set_tables tabs1 s)),
        tabs1, new1, evs1.
      split; [reflexivity|]. split; [reflexivity|]. split; [exact Hk1|].
      split; [|exact Hev1].
      intros x Hx. destruct (Hnew1 x Hx) as [-> [Hd Hm]].
      split; [now left | auto].
Qed.

(** X5: [build_tables] only ever adds keys to the table map, and only
    writes the table map and the trace.  However it exits, by returning or
    by an error of TableBuilder, the keys are the old keys, in their old
    order, followed by new ones; each new key is a pending class that is
    versioned with table creation on and had no entry; the pending list,
    the type map and every other field are as before. *)
Theorem build_tables_only_appends_keys s :
  exists s' new evs,
    final_state (build_tables E s) = Some s'
    /\ s' = set_trace (trace s ++ evs) (set_tables (tables s') s)
    /\ dict_keys (tables s') = dict_keys (tables s) ++ new
    /\ (forall c, In c new ->
          In c (pending_classes s) /\ derives_table E c = true
          /\ dict_mem c (tables s) = false)
    /\ forallb is_table_or_tx_event evs = true.
Proof.
  unfold build_tables. rewrite final_state_bind. unfold gets.
  destruct (for_each_build_table_for_grows (pending_classes s) s)
    as [s' [tabs' [new [evs [Hfin [Hs' [Hk [Hnew Hev]]]]]]]].
  exists s', new, evs. split; [exact Hfin|].
  subst s'. split; [reflexivity|]. split; [exact Hk|].
  split; [exact Hnew | exact Hev].
Qed.

End TableFacts.

Lemma build_table_for_existing_entry_witness :
  build_table_for (Blog.env Blog.all Quiet) Blog.BlogArticle
    (set_tables [(Blog.Article, [Blog.Article]);
                 (Blog.BlogArticle, [Blog.BlogArticle])]
       (Blog.manager [Blog.BlogArticle] true))
  = Return tt
      (set_trace [TableBuilderCall Blog.BlogArticle (Some Blog.Article)]
         (set_tables [(Blog.Article, [Blog.Article; Blog.BlogArticle]);
                      (Blog.BlogArticle, [Blog.BlogArticle])]
            (Blog.manager [Blog.BlogArticle] true))).
Proof.
  destruct (build_table_for_existing_entry (Blog.env Blog.all Quiet)
              Blog.BlogArticle
              (set_tables [(Blog.Article, [Blog.Article]);
                           (Blog.BlogArticle, [Blog.BlogArticle])]
                 (Blog.manager [Blog.BlogArticle] true)))
    as [k [inh [Hf [_ [_ [_ [Hret _]]]]]]].
  - reflexivity.
  - reflexivity.
  - vm_compute in Hf. injection Hf as <- <-.
    destruct (Hret [Blog.Article; Blog.BlogArticle] eq_refl) as [Hrun _].
    exact Hrun.
Defined.

Section TablesThenModels.

Context {ShadowTable : Type}.
Variable E : Env ShadowTable.
Implicit Types (s : State ShadowTable) (c k : cls).

Lemma for_each_build_table_for_covers l s s' :
  for_each l (build_table_for E) s = Return tt s' ->
  (forall c, In c l -> derives_table E c = true ->
     exists k, dict_mem k (tables s') = true /\ issubclass E c k = true)
  /\ (forall k, dict_mem k (tables s) = true -> dict_mem k (tables s') = true).
Proof.
  revert s. induction l as [|c l IH]; intros s Hrun.
  - simpl in Hrun. injection Hrun as <-. split; [intros c []|auto].
  - simpl in Hrun. unfold bind in Hrun.
    destruct (build_table_for E c s) as [[] s1|e s1|] eqn:Hstep;
      try discriminate.
    destruct (IH s1 Hrun) as [Hcov Hmono].
    assert (Hstep' : (forall k, dict_mem k (tables s) = true ->
                                dict_mem k (tables s1) = true)
                     /\ (derives_table E c = true ->
                         exists k, dict_mem k (tables s1) = true
                                   /\ issubclass E c k = true)).
    { destruct (derives_table E c) eqn:Hd.
      - rewrite (build_table_for_derives E c s Hd) in Hstep.
        destruct (find_inherited E (tables s) c) as [[k inh]|] eqn:Hf.
        + destruct (TableBuilder E c (Some inh)) as [v|]; try discriminate.
          injection Hstep as <-. simpl. split.
          * intros k' Hk'. rewrite dict_mem_set, Hk'. apply orb_true_r.
          * intros _. exists k. rewrite dict_mem_set, Nat.eqb_refl.
            split; [reflexivity|].
            now destruct (find_inherited_some E _ _ _ _ Hf) as [_ [Hsub _]].
        + destruct (TableBuilder E c None) as [v|]; try discriminate.
          injection Hstep as <-. simpl. split.
          * intros k' Hk'. rewrite dict_mem_set, Hk'. apply orb_true_r.
          * intros _. exists c. rewrite dict_mem_set, Nat.eqb_refl.
            split; [reflexivity | apply issubclass_refl].
      - rewrite (build_table_for_skips E c s Hd) in Hstep.
        injection Hstep as <-. split; [auto | discriminate]. }
    destruct Hstep' as [Hmono1 Hcov1]. split.
    + intros x [<-|Hx] Hd.
      * destruct (Hcov1 Hd) as [k [Hk Hsub]]. exists k. split; auto.
      * now apply Hcov.
    + intros k Hk. auto.
Qed.

Lemma build_tables_then_closest_table_lemma s s' :
  build_tables E s = Return tt s' ->
  forall c, In c (pending_classes s) -> derives_table E c = true ->
    exists t, closest_matching_table E (tables s') c = Some t.
Proof.
  intros Hrun c Hc Hd. unfold build_tables, bind, gets in Hrun.
  destruct (for_each_build_table_for_covers _ _ _ Hrun) as [Hcov _].
  destruct (Hcov c Hc Hd) as [k [Hk Hsub]].
  destruct (closest_matching_table_cases E (tables s') c)
    as [[_ Hall]|[k' [t [Hsome _]]]].
  - apply Hall in Hk. congruence.
  - now exists t.
Qed.

(** X6: table derivation guarantees resolution.  When [build_tables]
    returns, the closest-table resolver finds a table for every pending
    class that is versioned with table creation on, so [build_models] will
    not pass over it. *)
Theorem build_tables_then_closest_table s s' :
  build_tables E s = Return tt s' ->
  forall c, In c (pending_classes s) -> derives_table E c = true ->
    exists t, closest_matching_table E (tables s') c = Some t.
Proof.
  intros Hrun c Hc Hd. unfold build_tables, bind, gets in Hrun.
  destruct (for_each_build_table_for_covers _ _ _ Hrun) as [Hcov _].
  destruct (Hcov c Hc Hd) as [k [Hk Hsub]].
  destruct (closest_matching_table_cases E (tables s') c)
    as [[_ Hall]|[k' [t [Hsome _]]]].
  - apply Hall in Hk. congruence.
  - now exists t.
Qed.

(** X7: declaration order gives one shadow table per cluster.  Start from
    a manager with global versioning on, nothing pending and no entry for
    the physical table [t].  Let the hook see, in this order, classes on
    other tables, then the ancestor [r0] of the cluster on [t] (opted in,
    versioned, table creation on), then further classes among which those
    on [t] are subclasses of [r0], in any order and with any repetition.
    Then, TableBuilder not raising, [build_tables] returns and the cluster
    has exactly one shadow table, stored under [r0]. *)
Theorem declared_ancestor_first_one_table (D : Declared) t r0 others rest
    (reg : Registry ShadowTable) :
  options_versioning (manager_state reg) = true ->
  pending_classes (manager_state reg) = [] ->
  shadow_keys_on E t (tables (manager_state reg)) = [] ->
  has_versioned D r0 = true -> versioned_class_set D r0 = false ->
  table_of E r0 = t -> derives_table E r0 = true ->
  (forall c, In c others -> table_of E c <> t) ->
  (forall c, In c rest -> table_of E c = t -> issubclass E c r0 = true) ->
  (forall c inh, In c (others ++ r0 :: rest) -> TableBuilder E c inh <> None) ->
  exists s',
    build_tables E
      (manager_state (instrument_all D (others ++ r0 :: rest) reg))
    = Return tt s'
    /\ shadow_keys_on E t (tables s') = [r0]
    /\ exists tbl, dict_get r0 (tables s') = Some tbl.
Proof.
  intros Hv Hp Hkeys Hdecl Hcls Ht Hd Hothers Hrest Hok.
  apply andb_prop in Hd. destruct Hd as [Hver Hct].
  rewrite instrument_all_app.
  destruct (instrument_all_pending D others reg) as [add1 [Hst1 [Hin1 Hnd1]]].
  { rewrite Hp. constructor. }
  rewrite Hp in Hst1, Hnd1. simpl in Hst1, Hnd1.
  set (reg1 := instrument_all D others reg) in *.
  change (instrument_all D (r0 :: rest) reg1)
    with (instrument_all D rest (instrument_versioned_classes D r0 reg1)).
  assert (Hfresh : mem r0 (pending_classes (manager_state reg1)) = false).
  { rewrite Hst1. simpl. apply mem_false_notin. intros Hin.
    apply Hin1 in Hin. now apply Hothers in Hin. }
  rewrite (instrument_appends D r0 reg1 Hdecl Hcls); [| |exact Hfresh].
  2:{ rewrite Hst1. exact Hv. }
  set (reg2 := mkRegistry _ _).
  destruct (instrument_all_pending D rest reg2) as [add3 [Hst3 [Hin3 Hnd3]]].
  { unfold reg2. simpl. rewrite Hst1. simpl.
    apply NoDup_app; [exact Hnd1 | repeat constructor; auto |].
    intros x Hx [<-|[]]. apply Hin1 in Hx. now apply Hothers in Hx. }
  assert (Hpend : pending_classes (manager_state (instrument_all D rest reg2))
                  = add1 ++ r0 :: add3).
  { rewrite Hst3. unfold reg2. simpl. rewrite Hst1. simpl.
    now rewrite <- app_assoc. }
  assert (Htabs : tables (manager_state (instrument_all D rest reg2))
                  = tables (manager_state reg)).
  { rewrite Hst3. unfold reg2. simpl. rewrite Hst1. reflexivity. }
  apply (build_tables_cluster E t r0 add1 add3); auto.
  - rewrite Hpend. intros c inh Hc. apply Hok. apply in_app_or in Hc.
    apply in_or_app. destruct Hc as [Hc|[<-|Hc]]; auto.
    + right. now left.
    + right. right. now apply Hin3.
  - rewrite Htabs. exact Hkeys.
Qed.

End TablesThenModels.

Lemma build_tables_then_closest_table_witness :
  exists t,
    closest_matching_table (Blog.env Blog.all Quiet)
      [(Blog.Article, [Blog.Article; Blog.BlogArticle])] Blog.BlogArticle
    = Some t.
Proof.
  apply (build_tables_then_closest_table (Blog.env Blog.all Quiet)
           (Blog.manager [Blog.Article; Blog.BlogArticle] true)
           (set_trace [TableBuilderCall Blog.Article None;
                       TableBuilderCall Blog.BlogArticle (Some Blog.Article)]
              (set_tables [(Blog.Article, [Blog.Article; Blog.BlogArticle])]
                 (Blog.manager [Blog.Article; Blog.BlogArticle] true)))).
  - reflexivity.
  - simpl. auto.
  - reflexivity.
Defined.

Lemma declared_ancestor_first_one_table_witness :
  exists s',
    build_tables (Blog.env Blog.all Quiet)
      (manager_state
         (instrument_all Blog2.declared
            ([Blog.User] ++ Blog.Article :: [Blog.BlogArticle; Blog.Article])
            (Blog2.registry [])))
    = Return tt s'
    /\ shadow_keys_on (Blog.env Blog.all Quiet) 0 (tables s') = [Blog.Article]
    /\ exists tbl, dict_get Blog.Article (tables s') = Some tbl.
Proof.
  apply (declared_ancestor_first_one_table (Blog.env Blog.all Quiet)
           Blog2.declared 0 Blog.Article [Blog.User]
           [Blog.BlogArticle; Blog.Article] (Blog2.registry []));
    try reflexivity.
  - intros c [<-|[]]. discriminate.
  - intros c [<-|[<-|[]]] _; reflexivity.
  - intros c inh Hc. simpl in Hc.
    destruct Hc as [<-|[<-|[<-|[<-|[]]]]]; discriminate.
Defined.

(** ** How a pass ends *)

Section PassEnds.

Context {ShadowTable : Type}.
Variable E : Env ShadowTable.
Implicit Types (s : State ShadowTable) (c : cls).

Lemma configure_drained_returns fuel s :
  pending_classes s = [] ->
  configure_versioned_classes E (S fuel) s = Return tt s.
Proof.
  intros Hp. destruct s as [flag v cm p tabs vmap tx base rels tr].
  simpl in Hp. subst p. simpl. unfold prevent_reentry. simpl.
  destruct flag; [reflexivity|].
  unfold configure_handler, bind, gets. simpl.
  destruct v; simpl; [|reflexivity]. destruct cm; reflexivity.
Qed.

(** X8: with versioning globally off the orchestrator does nothing at
    all: it returns the state it was given, pending classes included. *)
Theorem configure_noop_when_versioning_disabled fuel s :
  options_versioning s = false ->
  configure_versioned_classes E (S fuel) s = Return tt s.
Proof.
  intros Hv. destruct s as [flag v cm p tabs vmap tx base rels tr].
  simpl in Hv. subst v. simpl. unfold prevent_reentry. simpl.
  destruct flag; reflexivity.
Qed.


(** Invariants over the pending list and the trace through model
    building, for hooks that do not re-enter. *)
Lemma keeps_build_models (K : list cls -> list Event -> Prop)
    (reenter : @M ShadowTable unit) :
  (forall p tr e, K p tr -> K p (tr ++ [e])) ->
  (forall c, after_version_class_built E c <> Reenters) ->
  after_build_models E <> Reenters ->
  keeps K (build_models E reenter).
Proof.
  intros HK Hb1 Hb2.
  assert (HK' : forall p tr e, (fun _ : Event => true) e = true ->
                               K p tr -> K p (tr ++ [e]))
    by (intros p tr e _; apply HK).
  unfold build_models.
  apply keeps_bind; [apply keeps_gets | intros pending].
  destruct pending as [|c0 l0]; [apply keeps_ret|].
  apply keeps_bind.
  - apply keeps_for_each. intros c. unfold build_model_for.
    destruct (option_versioning E c); simpl; [|apply keeps_ret].
    apply keeps_bind; [apply keeps_gets | intros tabs].
    destruct (closest_matching_table E tabs c); [|apply keeps_ret].
    apply keeps_bind.
    + unfold ModelBuilder.
      apply keeps_bind;
        [apply (keeps_log K _ HK'); reflexivity | intros _].
      apply keeps_bind; [apply keeps_gets | intros tx].
      apply keeps_bind; [|intros _; apply keeps_ret].
      apply keeps_modify; intros; reflexivity.
    + intros _. apply (keeps_run_hook K _ HK'); [reflexivity | apply Hb1].
  - intros _. apply (keeps_run_hook K _ HK'); [reflexivity | apply Hb2].
Qed.

(** The body of the orchestrator, for hooks that do not re-enter: if it
    raises, the pending list is the one it started with, or is empty when
    the error came after the list was cleared; if it returns, having
    started with versioning on, the pending list is empty. *)
Lemma configure_handler_pending (reenter : @M ShadowTable unit) pending :
  (forall c, after_version_class_built E c <> Reenters) ->
  after_build_models E <> Reenters ->
  after_build_tx_class E <> Reenters ->
  run (fun s => pending_classes s = pending /\ options_versioning s = true)
      (configure_handler E reenter)
      (fun _ s => pending_classes s = [])
      (fun s => pending_classes s = pending \/ pending_classes s = []).
Proof.
  intros Hb1 Hb2 Hb3.
  set (K := fun (p : list cls) (tr : list Event) =>
              p = pending).
  assert (HK : forall p tr (e : Event), K p tr -> K p (tr ++ [e]))
    by (intros p tr e H; exact H).
  assert (HK' : forall p tr e, (fun _ : Event => true) e = true ->
                               K p tr -> K p (tr ++ [e]))
    by (intros p tr e _; apply HK).
  assert (Hleft : forall s, holds K s ->
                    pending_classes s = pending \/ pending_classes s = [])
    by (intros s Hs; left; exact Hs).
  unfold configure_handler.
  eapply run_bind with (Q := fun v s => holds K s /\ v = true).
  { intros s [Hs Hv]. simpl. split; [exact Hs | exact Hv]. }
  intros versioning. destruct versioning; cbn [negb].
  2:{ intros s [_ Hv]. discriminate. }
  eapply run_bind with (Q := fun _ s => holds K s).
  { eapply run_conseq;
      [apply (keeps_build_tables K _ HK' E); reflexivity|..]; auto.
    intros s [Hs _]. exact Hs. }
  intros _.
  eapply run_bind with (Q := fun _ s => holds K s).
  { eapply run_conseq;
      [apply (keeps_build_transaction_class K _ HK' E reenter);
         try reflexivity; exact Hb3|..]; auto. }
  intros _.
  eapply run_bind with (Q := fun _ s => holds K s).
  { intros s Hs. exact Hs. }
  intros create_models. destruct (negb create_models).
  { intros s _. reflexivity. }
  eapply run_bind with (Q := fun _ s => holds K s).
  { eapply run_conseq;
      [apply (keeps_build_models K reenter HK Hb1 Hb2)|..]; auto. }
  intros _.
  eapply run_bind with (Q := fun _ _ => True).
  { intros s _. exact I. }
  intros copies.
  eapply run_bind with (Q := fun _ s => pending_classes s = []).
  { intros s _. reflexivity. }
  intros _.
  set (K0 := fun (p : list cls) (tr : list Event) => p = @nil cls).
  assert (HK0 : forall p tr e, (fun _ : Event => true) e = true ->
                               K0 p tr -> K0 p (tr ++ [e]))
    by (intros p tr e _ H; exact H).
  eapply run_conseq;
    [apply (keeps_finishing K0 _ HK0 E copies); reflexivity|..]; auto.
Qed.

Lemma configure_versioning_off fuel s :
  options_versioning s = false ->
  configure_versioned_classes E (S fuel) s = Return tt s.
Proof.
  intros Hv. unfold configure_versioned_classes, prevent_reentry.
  destruct (in_handler s) eqn:Hflag; [reflexivity|].
  unfold configure_handler. rewrite bind_gets.
  change (options_versioning (set_in_handler true s))
    with (options_versioning s).
  rewrite Hv. simpl. f_equal.
  destruct s. simpl in Hflag. subst. reflexivity.
Qed.

End PassEnds.

Section PassEndsTheorems.

Context {ShadowTable : Type}.
Variable E : Env ShadowTable.
Implicit Types (s : State ShadowTable) (c : cls).

(** X9: a pass that fails is not rolled back and blocks the next one.
    When a top-level invocation ends in an error, the pending list is
    either the one the pass started with, or empty (the error came after
    the list was cleared, during relationship derivation or a finishing
    pass); the guard's flag is still up, and every later invocation
    returns at once, changing nothing. *)
Theorem failed_pass_pending_kept_or_cleared fuel s e s' :
  in_handler s = false ->
  configure_versioned_classes E (S (S fuel)) s = Raised e s' ->
  (pending_classes s' = pending_classes s \/ pending_classes s' = [])
  /\ in_handler s' = true
  /\ forall (E' : Env ShadowTable) fuel',
       configure_versioned_classes E' (S fuel') s' = Return tt s'.
Proof.
  intros Hflag Hrun.
  assert (Hv : options_versioning s = true).
  { destruct (options_versioning s) eqn:Hv; [reflexivity|].
    rewrite (configure_versioning_off E (S fuel) s Hv) in Hrun.
    discriminate. }
  assert (Hup : in_handler s' = true).
  { rewrite (unfold_configure E fuel s Hflag) in Hrun.
    destruct (sim_configure_handler E
                (configure_versioned_classes E (S fuel))
                (configure_versioned_classes E (S fuel))
                (nested_invocation_returns E fuel)
                (set_in_handler true s) eq_refl) as [_ Hstay].
    destruct (configure_handler E (configure_versioned_classes E (S fuel))
                (set_in_handler true s)) as [[] s1|e1 s1|];
      try discriminate.
    injection Hrun as _ <-. exact Hstay. }
  split; [|split; [exact Hup|]].
  - rewrite (configure_without_reentry E fuel 0) in Hrun.
    simpl in Hrun. unfold prevent_reentry in Hrun. rewrite Hflag in Hrun.
    pose proof (configure_handler_pending (without_reentry E)
                  (fun _ => OutOfFuel) (pending_classes s)
                  (fun c => calm_not_reenters _) (calm_not_reenters _)
                  (calm_not_reenters _) (set_in_handler true s)
                  (conj eq_refl Hv))
      as Hpend.
    destruct (configure_handler (without_reentry E) (fun _ => OutOfFuel)
                (set_in_handler true s)) as [[] s1|e1 s1|];
      try discriminate.
    injection Hrun as _ <-. exact Hpend.
  - intros E' fuel'. now apply nested_invocation_returns.
Qed.

(** X10: a pass that returns leaves nothing to do.  Invoked again on the
    state a returning invocation left, the orchestrator returns that state
    unchanged; and when the first invocation was a top-level one with
    versioning on, it left the pending list empty and the flag down. *)
Theorem returned_pass_is_final fuel fuel' s s' :
  configure_versioned_classes E (S (S fuel)) s = Return tt s' ->
  configure_versioned_classes E (S fuel') s' = Return tt s'
  /\ (in_handler s = false -> options_versioning s = true ->
      pending_classes s' = [] /\ in_handler s' = false).
Proof.
  intros Hrun. destruct (in_handler s) eqn:Hflag.
  { rewrite (nested_invocation_returns E (S fuel) s Hflag) in Hrun.
    injection Hrun as <-. split; [|discriminate].
    now apply nested_invocation_returns. }
  destruct (options_versioning s) eqn:Hv.
  2:{ rewrite (configure_versioning_off E (S fuel) s Hv) in Hrun.
      injection Hrun as <-. split; [|discriminate].
      now apply configure_versioning_off. }
  rewrite (configure_without_reentry E fuel 0) in Hrun.
  simpl in Hrun. unfold prevent_reentry in Hrun. rewrite Hflag in Hrun.
  pose proof (configure_handler_pending (without_reentry E)
                (fun _ => OutOfFuel) (pending_classes s)
                (fun c => calm_not_reenters _) (calm_not_reenters _)
                (calm_not_reenters _) (set_in_handler true s)
                (conj eq_refl Hv))
    as Hpend.
  destruct (configure_handler (without_reentry E) (fun _ => OutOfFuel)
              (set_in_handler true s)) as [[] s1|e1 s1|];
    try discriminate.
  injection Hrun as <-.
  split; [|intros _ _; split; [exact Hpend | reflexivity]].
  apply configure_drained_returns. exact Hpend.
Qed.

End PassEndsTheorems.

Lemma configure_noop_when_versioning_disabled_witness :
  configure_versioned_classes (Blog.env Blog.all Quiet) 1
    (mkState false false true [Blog.Article] [] [] None None [] [])
  = Return tt (mkState false false true [Blog.Article] [] [] None None [] []).
Proof.
  apply (configure_noop_when_versioning_disabled (Blog.env Blog.all Quiet) 0
           (mkState false false true [Blog.Article] [] [] None None [] [])).
  reflexivity.
Defined.

Lemma failed_pass_pending_kept_or_cleared_witness :
  exists s',
    configure_versioned_classes Blog2.env_with_alias 2
      (Blog.manager [Blog.Article] true)
    = Raised AttributeError s'
    /\ (pending_classes s' = [Blog.Article] \/ pending_classes s' = [])
    /\ in_handler s' = true.
Proof.
  eassert (Hrun : configure_versioned_classes Blog2.env_with_alias 2
                    (Blog.manager [Blog.Article] true)
                  = Raised AttributeError _)
    by (vm_compute; reflexivity).
  eexists. split; [exact Hrun|].
  destruct (failed_pass_pending_kept_or_cleared Blog2.env_with_alias 0
              (Blog.manager [Blog.Article] true)
              AttributeError _ eq_refl Hrun) as [Hp [Hup _]].
  split; [exact Hp | exact Hup].
Defined.

Lemma returned_pass_is_final_witness :
  exists s',
    configure_versioned_classes (Blog.env Blog.all Reenters) 2
      (Blog.manager [Blog.Article; Blog.User] true) = Return tt s'
    /\ configure_versioned_classes (Blog.env Blog.all Reenters) 1 s'
       = Return tt s'
    /\ pending_classes s' = [].
Proof.
  eassert (Hrun : configure_versioned_classes (Blog.env Blog.all Reenters) 2
                    (Blog.manager [Blog.Article; Blog.User] true)
                  = Return tt _)
    by (vm_compute; reflexivity).
  eexists. split; [exact Hrun|].
  destruct (returned_pass_is_final (Blog.env Blog.all Reenters) 0 0
              (Blog.manager [Blog.Article; Blog.User] true) _ Hrun)
    as [Hagain Hdrained].
  split; [exact Hagain|]. now destruct (Hdrained eq_refl eq_refl).
Defined.

(** ** The finishing passes *)

Section FinishingFacts.

Context {ShadowTable : Type}.
Variable E : Env ShadowTable.
Implicit Types (s : State ShadowTable) (c : cls).

(** A loop whose body appends to the trace events that depend on the
    element alone, as long as [I] holds, which appending does not break. *)
Lemma for_each_appends {A} (I : State ShadowTable -> Prop) (l : list A)
    (body : A -> @M ShadowTable unit) (evf : A -> list Event) s :
  (forall s0 t, I s0 -> I (set_trace t s0)) ->
  (forall x s0, I s0 ->
     body x s0 = Return tt (set_trace (trace s0 ++ evf x) s0)) ->
  I s ->
  for_each l body s = Return tt (set_trace (trace s ++ flat_map evf l) s).
Proof.
  intros HI Hbody. revert s. induction l as [|x l IH]; intros s Hs; simpl.
  - unfold ret. f_equal. destruct s. same_state.
  - unfold bind. rewrite (Hbody x s Hs).
    rewrite (IH _ (HI s _ Hs)). f_equal. same_state.
Qed.

Lemma for_each_log_exact {A} (l : list A) (ev : A -> Event)
    (skip : A -> bool) s :
  for_each l (fun x => if skip x then ret tt else log (ev x)) s
  = Return tt
      (set_trace (trace s ++ map ev (filter (fun x => negb (skip x)) l)) s).
Proof.
  rewrite (for_each_appends (fun _ => True) l _
             (fun x => if skip x then [] else [ev x]) s); auto.
  - f_equal. f_equal. f_equal.
    induction l as [|x l IH]; simpl; [reflexivity|].
    destruct (skip x); simpl; now rewrite IH.
  - intros x s0 _. destruct (skip x).
    + unfold ret. f_equal. destruct s0. same_state.
    + reflexivity.
Qed.

Lemma for_each_cons {A} (x : A) (l : list A)
    (body : A -> @M ShadowTable unit) s :
  for_each (x :: l) body s
  = match body x s with
    | Return _ s1 => for_each l body s1
    | Raised e s1 => Raised e s1
    | OutOfFuel => OutOfFuel
    end.
Proof. reflexivity. Qed.

(** What the inner loop of [enable_active_history] does for class [c]. *)
Lemma enable_active_history_props c props s :
  (for_each props (fun prop =>
      if concrete_inherited prop then ret tt
      else if instrumented prop
           then log (ActiveHistorySet c (key prop))
           else raise AttributeError) s
   = Return tt
       (set_trace
          (trace s ++ map (fun prop => ActiveHistorySet c (key prop))
                        (filter (fun prop => negb (concrete_inherited prop))
                                props)) s)
   /\ forall prop, In prop props -> concrete_inherited prop = false ->
                   instrumented prop = true)
  \/ (exists evs prop rest,
        for_each props (fun prop =>
            if concrete_inherited prop then ret tt
            else if instrumented prop
                 then log (ActiveHistorySet c (key prop))
                 else raise AttributeError) s
        = Raised AttributeError (set_trace (trace s ++ evs) s)
        /\ map (fun prop => ActiveHistorySet c (key prop))
               (filter (fun prop => negb (concrete_inherited prop)) props)
           = evs ++ ActiveHistorySet c (key prop) :: rest
        /\ In prop props /\ concrete_inherited prop = false
        /\ instrumented prop = false).
Proof.
  revert s. induction props as [|p props IH]; intros s.
  - left. split; [|intros prop []]. simpl. unfold ret. f_equal.
    apply same_trace.
  - rewrite for_each_cons. cbn [filter map].
    destruct (concrete_inherited p) eqn:Hci; cbn [negb map].
    + unfold ret at 1 3.
      destruct (IH s) as [[Hret Hall]|[evs [prop [rest [Hr [Hev Hp]]]]]].
      * left. split; [exact Hret|]. intros prop [<-|Hin] Hc;
          [congruence | now apply Hall].
      * right. exists evs, prop, rest. split; [exact Hr|].
        split; [exact Hev|]. destruct Hp as [Hin Hp]. split; [now right|].
        exact Hp.
    + destruct (instrumented p) eqn:Hins.
      * unfold log at 1 3, modify.
        destruct (IH (set_trace (trace s ++ [ActiveHistorySet c (key p)]) s))
          as [[Hret Hall]|[evs [prop [rest [Hr [Hev Hp]]]]]].
        -- left. split.
           ++ rewrite Hret. f_equal. destruct s. same_state.
           ++ intros prop [<-|Hin] Hc; [exact Hins | now apply Hall].
        -- right. exists (ActiveHistorySet c (key p) :: evs), prop, rest.
           split; [|split].
           ++ rewrite Hr. f_equal. destruct s. same_state.
           ++ simpl. now rewrite Hev.
           ++ destruct Hp as [Hin Hp]. split; [now right | exact Hp].
      * unfold raise at 1 3.
        right. exists [], p, (map (fun prop => ActiveHistorySet c (key prop))
                               (filter (fun prop =>
                                          negb (concrete_inherited prop))
                                       props)).
        split; [|split; [reflexivity|]].
        -- f_equal. apply same_trace.
        -- split; [now left|]. split; assumption.
Qed.

(** What [enable_active_history] does: all of it, or all up to the first
    property that has no instrumented attribute. *)
Lemma enable_active_history_outcome l s :
  (enable_active_history E l s
   = Return tt (set_trace (trace s ++ active_history_events E l) s)
   /\ forall c prop, In c l -> In prop (iterate_properties E c) ->
                     concrete_inherited prop = false ->
                     instrumented prop = true)
  \/ (exists evs c prop rest,
        enable_active_history E l s
        = Raised AttributeError (set_trace (trace s ++ evs) s)
        /\ active_history_events E l
           = evs ++ ActiveHistorySet c (key prop) :: rest
        /\ In c l /\ In prop (iterate_properties E c)
        /\ concrete_inherited prop = false /\ instrumented prop = false).
Proof.
  unfold enable_active_history, active_history_events. revert s.
  induction l as [|c l IH]; intros s.
  - left. split; [|intros c prop []]. simpl. unfold ret. f_equal.
    apply same_trace.
  - rewrite for_each_cons. cbn [flat_map].
    destruct (enable_active_history_props c (iterate_properties E c) s)
      as [[Hret Hall]|[evs [prop [rest [Hr [Hev [Hin [Hci Hins]]]]]]]].
    + rewrite Hret.
      match goal with
      | |- context [for_each l _ ?s1] =>
          destruct (IH s1)
            as [[Hret2 Hall2]
               |[evs2 [c2 [prop2 [rest2 [Hr2 [Hev2 [Hc2 Hp2]]]]]]]]
      end.
      * left. split; [rewrite Hret2; f_equal; destruct s; same_state|].
        intros c0 prop [<-|Hc0]; [apply Hall | now apply Hall2].
      * right.
        exists (map (fun prop => ActiveHistorySet c (key prop))
                    (filter (fun prop => negb (concrete_inherited prop))
                            (iterate_properties E c)) ++ evs2).
        exists c2, prop2, rest2. split; [|split].
        -- rewrite Hr2. f_equal. destruct s. same_state.
        -- rewrite Hev2. now rewrite app_assoc.
        -- split; [now right | exact Hp2].
    + rewrite Hr. right. exists evs, c, prop. eexists. split; [reflexivity|].
      split; [rewrite Hev; now rewrite <- app_assoc|].
      split; [now left|]. auto.
Qed.

(** X12: [enable_active_history] switches active history on, in order, for
    the mapped properties that are not a ConcreteInheritedProperty of every
    class it is given, whatever the versioning option of the class.  When
    each of these properties has an instrumented attribute on its class it
    returns with all of them switched on; otherwise it raises
    AttributeError at the first that has none, with exactly the ones before
    it switched on.  Either way it changes nothing else. *)
Theorem enable_active_history_spec l s :
  ((forall c prop, In c l -> In prop (iterate_properties E c) ->
                   concrete_inherited prop = false ->
                   instrumented prop = true) ->
   enable_active_history E l s
   = Return tt (set_trace (trace s ++ active_history_events E l) s))
  /\ (forall s', enable_active_history E l s = Return tt s' ->
        s' = set_trace (trace s ++ active_history_events E l) s
        /\ forall c prop, In c l -> In prop (iterate_properties E c) ->
                          concrete_inherited prop = false ->
                          instrumented prop = true)
  /\ (forall e s', enable_active_history E l s = Raised e s' ->
        e = AttributeError
        /\ exists evs c prop rest,
             s' = set_trace (trace s ++ evs) s
             /\ active_history_events E l
                = evs ++ ActiveHistorySet c (key prop) :: rest
             /\ In c l /\ In prop (iterate_properties E c)
             /\ concrete_inherited prop = false
             /\ instrumented prop = false)
  /\ (forall c k,
        In (ActiveHistorySet c k) (active_history_events E l)
        <-> In c l
            /\ exists prop, In prop (iterate_properties E c)
                            /\ key prop = k
                            /\ concrete_inherited prop = false).
Proof.
  split; [|split; [|split]].
  - intros Hall.
    destruct (enable_active_history_outcome l s)
      as [[Hret _]|[evs [c [prop [rest [_ [_ [Hc [Hp [Hci Hins]]]]]]]]]].
    + exact Hret.
    + rewrite (Hall c prop Hc Hp Hci) in Hins. discriminate.
  - intros s' Hrun.
    destruct (enable_active_history_outcome l s)
      as [[Hret Hall]|[evs [c [prop [rest [Hr _]]]]]].
    + rewrite Hret in Hrun. injection Hrun as <-. split; [reflexivity|].
      exact Hall.
    + rewrite Hr in Hrun. discriminate.
  - intros e s' Hrun.
    destruct (enable_active_history_outcome l s)
      as [[Hret _]|[evs [c [prop [rest [Hr [Hev Hrest]]]]]]].
    + rewrite Hret in Hrun. discriminate.
    + rewrite Hr in Hrun. injection Hrun as <- <-. split; [reflexivity|].
      exists evs, c, prop, rest. split; [reflexivity|]. split; assumption.
  - intros c k. unfold active_history_events. rewrite in_flat_map. split.
    + intros [c' [Hc' Hin]]. apply in_map_iff in Hin.
      destruct Hin as [prop [Heq Hprop]]. injection Heq as -> <-.
      apply filter_In in Hprop. destruct Hprop as [Hprop Hci].
      split; [exact Hc'|]. exists prop. repeat split; auto.
      now apply negb_true_iff.
    + intros [Hc [prop [Hprop [<- Hci]]]]. exists c. split; [exact Hc|].
      apply in_map_iff. exists prop. split; [reflexivity|].
      apply filter_In. split; [exact Hprop|]. now rewrite Hci.
Qed.

Lemma create_column_aliases_exact l s :
  create_column_aliases E l s
  = Return tt
      (set_trace (trace s ++ column_alias_events E (version_class_map s) l) s).
Proof.
  unfold create_column_aliases, column_alias_events.
  apply (for_each_appends
           (fun s0 => version_class_map s0 = version_class_map s)); auto.
  intros c s0 Hs0. unfold bind, gets. simpl. rewrite Hs0.
  destruct (dict_get c (version_class_map s)) as [version_class|].
  - rewrite (for_each_ext (columns E c) _
               (fun kc =>
                  if negb (negb (String.eqb (fst kc) (snd kc))
                           && shadow_has_column E
                                (vc_table version_class) (snd kc))
                  then ret tt
                  else log (ColumnAliasAdded c (fst kc)))).
    + rewrite for_each_log_exact. f_equal. f_equal. f_equal. f_equal.
      apply filter_ext. intros kc. apply negb_involutive.
    + intros kc s1.
      destruct (String.eqb (fst kc) (snd kc));
        destruct (shadow_has_column E (vc_table version_class) (snd kc));
        reflexivity.
  - unfold ret. f_equal. destruct s0. same_state.
Qed.

(** X13: [create_column_aliases] adds an alias [a] to the shadow type of a
    class exactly when the class is among those given, has a shadow type
    in the type map, maps attribute [a] onto a column of a different key,
    and the table of the shadow type has a column of that key; a class
    with no shadow type is passed over; nothing else changes. *)
Theorem create_column_aliases_spec l s :
  create_column_aliases E l s
  = Return tt
      (set_trace (trace s ++ column_alias_events E (version_class_map s) l) s)
  /\ forall c a,
       In (ColumnAliasAdded c a)
          (column_alias_events E (version_class_map s) l)
       <-> In c l
           /\ exists version_class col,
                dict_get c (version_class_map s) = Some version_class
                /\ In (a, col) (columns E c)
                /\ a <> col
                /\ shadow_has_column E (vc_table version_class) col = true.
Proof.
  split; [apply create_column_aliases_exact|].
  intros c a. unfold column_alias_events. rewrite in_flat_map. split.
  - intros [c' [Hc' Hin]].
    destruct (dict_get c' (version_class_map s)) as [vc|] eqn:Hget;
      [|contradiction].
    apply in_map_iff in Hin. destruct Hin as [[a' col] [Heq Hkc]].
    simpl in Heq. injection Heq as -> ->.
    apply filter_In in Hkc. destruct Hkc as [Hkc Hp]. simpl in Hp.
    apply andb_prop in Hp. destruct Hp as [Hne Hcol].
    split; [exact Hc'|]. exists vc, col. repeat split; auto.
    apply negb_true_iff in Hne. now apply String.eqb_neq.
  - intros [Hc [vc [col [Hget [Hkc [Hne Hcol]]]]]]. exists c.
    split; [exact Hc|]. rewrite Hget. apply in_map_iff. exists (a, col).
    split; [reflexivity|]. apply filter_In. split; [exact Hkc|]. simpl.
    rewrite Hcol. apply String.eqb_neq in Hne. now rewrite Hne.
Qed.

End FinishingFacts.

Lemma enable_active_history_spec_witness :
  enable_active_history (Blog.env Blog.all Quiet) [Blog.User]
    (Blog.manager [] true)
  = Return tt
      (set_trace [ActiveHistorySet Blog.User "id";
                  ActiveHistorySet Blog.User "versions"]
         (Blog.manager [] true))
  /\ exists s',
       enable_active_history Blog2.env_with_alias [Blog.Article]
         (Blog.manager [] true)
       = Raised AttributeError s'
       /\ trace s' = [ActiveHistorySet Blog.Article "id"].
Proof.
  split.
  - destruct (enable_active_history_spec (Blog.env Blog.all Quiet)
                [Blog.User] (Blog.manager [] true)) as [Hall _].
    apply Hall. intros c prop [<-|[]] Hprop _. simpl in Hprop.
    destruct Hprop as [<-|[<-|[]]]; reflexivity.
  - eassert (Hrun : enable_active_history Blog2.env_with_alias [Blog.Article]
                      (Blog.manager [] true) = Raised AttributeError _)
      by (vm_compute; reflexivity).
    eexists. split; [exact Hrun|].
    destruct (enable_active_history_spec Blog2.env_with_alias
                [Blog.Article] (Blog.manager [] true))
      as [_ [_ [Hraise _]]].
    destruct (Hraise _ _ Hrun) as [_ _]. reflexivity.
Defined.

Lemma create_column_aliases_spec_witness :
  create_column_aliases Blog2.env_with_alias [Blog.Article; Blog.User]
    (set_version_class_map
       [(Blog.Article, mkVersionClass Blog.Article [Blog.Article] None)]
       (Blog.manager [] true))
  = Return tt
      (set_trace [ColumnAliasAdded Blog.Article "title"]
         (set_version_class_map
            [(Blog.Article, mkVersionClass Blog.Article [Blog.Article] None)]
            (Blog.manager [] true))).
Proof.
  destruct (create_column_aliases_spec Blog2.env_with_alias
              [Blog.Article; Blog.User]
              (set_version_class_map
                 [(Blog.Article,
                   mkVersionClass Blog.Article [Blog.Article] None)]
                 (Blog.manager [] true))) as [Hrun _].
  exact Hrun.
Defined.

(** ** A pass, however it ends *)

Section PassOutcomes.

Context {ShadowTable : Type}.
Variable E : Env ShadowTable.
Implicit Types (s : State ShadowTable) (c : cls).

Lemma bind_Raised {A B} (m : M A) (k : A -> @M ShadowTable B) s e s' :
  m s = Raised e s' -> bind m k s = Raised e s'.
Proof. intros H. unfold bind. now rewrite H. Qed.

Lemma table_calls_app evs1 evs2 :
  table_calls (evs1 ++ evs2) = table_calls evs1 ++ table_calls evs2.
Proof. apply flat_map_app. Qed.

Lemma table_or_tx_early evs :
  forallb is_table_or_tx_event evs = true ->
  forallb is_early_event evs = true.
Proof. apply forallb_impl. intros e. now destruct e. Qed.

Lemma model_events_early l : forallb is_early_event (model_events l) = true.
Proof. induction l as [|c l IH]; simpl; [reflexivity | exact IH]. Qed.

Lemma finishing_late evs :
  forallb is_finishing_event evs = true -> forallb is_late_event evs = true.
Proof. apply forallb_impl. intros e. now destruct e. Qed.

Lemma relationship_events_late version_classes :
  forallb is_late_event (relationship_events E version_classes) = true.
Proof.
  apply forallb_forall. intros e He. unfold relationship_events in He.
  apply in_flat_map in He. destruct He as [c [_ He]].
  destruct (option_versioning E c); [|contradiction].
  apply in_map_iff in He. destruct He as [k [<- _]]. reflexivity.
Qed.

(** TableBuilder is called for the classes that are versioned with table
    creation on, once each, in the order of the list. *)
Lemma for_each_build_table_for_calls l s s' :
  for_each l (build_table_for E) s = Return tt s' ->
  in_handler s' = in_handler s
  /\ exists evs, trace s' = trace s ++ evs
                 /\ table_calls evs = filter (derives_table E) l.
Proof.
  revert s. induction l as [|c l IH]; intros s Hrun.
  - simpl in Hrun. injection Hrun as <-. split; [reflexivity|].
    exists []. now rewrite app_nil_r.
  - rewrite for_each_cons in Hrun.
    destruct (build_table_for E c s) as [[] s1|e s1|] eqn:Hstep;
      try discriminate.
    destruct (IH s1 Hrun) as [Hflag [evs2 [Htr2 Hc2]]].
    cbn [filter]. destruct (derives_table E c) eqn:Hd.
    + rewrite (build_table_for_derives E c s Hd) in Hstep.
      destruct (find_inherited E (tables s) c) as [[k inh]|].
      * destruct (TableBuilder E c (Some inh)) as [v|]; try discriminate.
        injection Hstep as <-. simpl in Htr2, Hflag.
        split; [exact Hflag|].
        exists (TableBuilderCall c (Some k) :: evs2).
        rewrite Htr2, <- app_assoc. split; [reflexivity|].
        simpl. now rewrite Hc2.
      * destruct (TableBuilder E c None) as [v|]; try discriminate.
        injection Hstep as <-. simpl in Htr2, Hflag.
        split; [exact Hflag|].
        exists (TableBuilderCall c None :: evs2).
        rewrite Htr2, <- app_assoc. split; [reflexivity|].
        simpl. now rewrite Hc2.
    + rewrite (build_table_for_skips E c s Hd) in Hstep.
      injection Hstep as <-. split; [exact Hflag|].
      exists evs2. split; assumption.
Qed.

Variable reenter : @M ShadowTable unit.
Hypothesis reenter_collapses :
  forall s, in_handler s = true -> reenter s = Return tt s.

Lemma run_hook_outcome ev b s :
  in_handler s = true ->
  run_hook reenter ev b s
  = match b with
    | Fails => Raised PluginError (set_trace (trace s ++ [ev]) s)
    | _ => Return tt (set_trace (trace s ++ [ev]) s)
    end.
Proof.
  intros Hs. unfold run_hook, bind, log, modify, ret, raise. simpl.
  destruct b; try reflexivity. apply reenter_collapses. exact Hs.
Qed.

(** [build_transaction_class], however it exits: it writes the declarative
    base and the Transaction entity, calls no TableBuilder, and raises only
    with these same fields written. *)
Lemma build_transaction_class_outcome s :
  in_handler s = true ->
  exists tx' base' evs,
    (build_transaction_class E reenter s
     = Return tt (set_trace (trace s ++ evs)
                    (set_transaction_cls tx' (set_declarative_base base' s)))
     \/ exists e,
          build_transaction_class E reenter s
          = Raised e (set_trace (trace s ++ evs)
                        (set_transaction_cls tx'
                           (set_declarative_base base' s))))
    /\ forallb is_table_or_tx_event evs = true
    /\ table_calls evs = [].
Proof.
  intros Hs. unfold build_transaction_class. rewrite bind_gets.
  destruct (pending_classes s) as [|c rest].
  - exists (transaction_cls s), (declarative_base s), [].
    split; [left; unfold ret; f_equal; destruct s; same_state|].
    split; reflexivity.
  - destruct (get_declarative_base E c) as [b|].
    + exists (transaction_after b (transaction_cls s)), (Some b),
        (transaction_events b (transaction_cls s)).
      split; [|split; unfold transaction_events;
                      now destruct (transaction_cls s)].
      rewrite bind_modify.
      unfold create_transaction_model, bind, gets, log, modify, ret.
      simpl. destruct (transaction_cls s) as [tx|] eqn:Htx; simpl.
      * rewrite run_hook_outcome; [|exact Hs].
        destruct (after_build_tx_class E);
          [left | left | right; exists PluginError];
          f_equal; destruct s; simpl in *; subst; same_state.
      * rewrite run_hook_outcome; [|exact Hs].
        destruct (after_build_tx_class E);
          [left | left | right; exists PluginError];
          f_equal; same_state.
    + exists (transaction_cls s), (declarative_base s), [].
      split; [right; exists ConfigurationError; unfold raise; f_equal;
              destruct s; same_state|].
      split; reflexivity.
Qed.

(** One iteration of [build_models], step by step. *)
Lemma build_model_for_step c s :
  in_handler s = true ->
  build_model_for E reenter c s
  = if option_versioning E c then
      match closest_matching_table E (tables s) c with
      | Some table =>
          match after_version_class_built E c with
          | Fails =>
              Raised PluginError
                (set_trace
                   (trace s ++ [ModelBuilderCall c; AfterVersionClassBuilt c])
                   (set_version_class_map
                      (dict_set c (mkVersionClass c table (transaction_cls s))
                         (version_class_map s)) s))
          | _ =>
              Return tt
                (set_trace
                   (trace s ++ [ModelBuilderCall c; AfterVersionClassBuilt c])
                   (set_version_class_map
                      (dict_set c (mkVersionClass c table (transaction_cls s))
                         (version_class_map s)) s))
          end
      | None => Return tt s
      end
    else Return tt s.
Proof.
  intros Hs. unfold build_model_for.
  destruct (option_versioning E c); simpl; [|reflexivity].
  rewrite bind_gets.
  destruct (closest_matching_table E (tables s) c) as [table|];
    [|reflexivity].
  unfold ModelBuilder, bind, log, modify, gets, ret. simpl.
  rewrite run_hook_outcome; [|exact Hs].
  destruct (after_version_class_built E c); f_equal; same_state.
Qed.

(** One iteration of [build_models], however it exits. *)
Lemma build_model_for_outcome c s :
  in_handler s = true ->
  (exists vmap',
      build_model_for E reenter c s
      = Return tt
          (set_trace (trace s ++ model_events (built_models E (tables s) [c]))
             (set_version_class_map vmap' s))
      /\ forall c', dict_mem c' vmap'
                    = dict_mem c' (version_class_map s)
                      || mem c' (built_models E (tables s) [c]))
  \/ (exists e vmap' evs,
        build_model_for E reenter c s
        = Raised e (set_trace (trace s ++ evs)
                      (set_version_class_map vmap' s))
        /\ forallb is_early_event evs = true).
Proof.
  intros Hs. rewrite (build_model_for_step c s Hs).
  assert (Hskip : built_models E (tables s) [c] = [] ->
            exists vmap',
              Return tt s
              = Return tt
                  (set_trace
                     (trace s
                      ++ model_events (built_models E (tables s) [c]))
                     (set_version_class_map vmap' s))
              /\ forall c', dict_mem c' vmap'
                            = dict_mem c' (version_class_map s)
                              || mem c' (built_models E (tables s) [c])).
  { intros ->. exists (version_class_map s).
    split; [f_equal; destruct s; same_state|].
    intros c'. now rewrite orb_false_r. }
  unfold built_models in *. cbn [filter] in *.
  destruct (option_versioning E c); cbn [andb] in *;
    [|left; now apply Hskip].
  destruct (closest_matching_table E (tables s) c) as [table|];
    [|left; now apply Hskip].
  clear Hskip.
  assert (Hmem : forall c',
             dict_mem c'
               (dict_set c (mkVersionClass c table (transaction_cls s))
                  (version_class_map s))
             = dict_mem c' (version_class_map s) || mem c' [c]).
  { intros c'. rewrite dict_mem_set. unfold mem. simpl.
    rewrite orb_false_r. apply orb_comm. }
  destruct (after_version_class_built E c).
  - left. eexists. split; [reflexivity | exact Hmem].
  - left. eexists. split; [reflexivity | exact Hmem].
  - right. exists PluginError. eexists.
    exists [ModelBuilderCall c; AfterVersionClassBuilt c].
    split; reflexivity.
Qed.

Lemma for_each_build_model_for_outcome l s :
  in_handler s = true ->
  (exists vmap',
      for_each l (build_model_for E reenter) s
      = Return tt
          (set_trace (trace s ++ model_events (built_models E (tables s) l))
             (set_version_class_map vmap' s))
      /\ forall c', dict_mem c' vmap'
                    = dict_mem c' (version_class_map s)
                      || mem c' (built_models E (tables s) l))
  \/ (exists e vmap' evs,
        for_each l (build_model_for E reenter) s
        = Raised e (set_trace (trace s ++ evs)
                      (set_version_class_map vmap' s))
        /\ forallb is_early_event evs = true).
Proof.
  revert s. induction l as [|c l IH]; intros s Hs.
  - left. exists (version_class_map s).
    split; [simpl; unfold ret; f_equal; destruct s; same_state|].
    intros c'. now rewrite orb_false_r.
  - rewrite for_each_cons.
    destruct (build_model_for_outcome c s Hs)
      as [[vmap1 [H1 Hm1]]|[e [vmap1 [evs1 [H1 Hev1]]]]]; rewrite H1.
    + match goal with
      | |- context [for_each l _ ?s1] =>
          destruct (IH s1 Hs)
            as [[vmap2 [H2 Hm2]]|[e [vmap2 [evs2 [H2 Hev2]]]]]; rewrite H2
      end.
      * left. exists vmap2.
        rewrite (built_models_cons E (tables s) c l), model_events_app.
        split; [f_equal; same_state|].
        intros c'. rewrite Hm2. simpl. rewrite Hm1, mem_app.
        now rewrite orb_assoc.
      * right. exists e, vmap2,
          (model_events (built_models E (tables s) [c]) ++ evs2).
        split; [f_equal; same_state|].
        now rewrite forallb_app, model_events_early, Hev2.
    + right. exists e, vmap1, evs1. split; [reflexivity | exact Hev1].
Qed.

(** [build_models], however it exits. *)
Lemma build_models_outcome s :
  in_handler s = true ->
  (exists vmap',
      build_models E reenter s
      = Return tt
          (set_trace
             (trace s
              ++ model_events (built_models E (tables s) (pending_classes s))
              ++ models_notice (pending_classes s))
             (set_version_class_map vmap' s))
      /\ forall c', dict_mem c' vmap'
                    = dict_mem c' (version_class_map s)
                      || mem c' (built_models E (tables s)
                                   (pending_classes s)))
  \/ (exists e vmap' evs,
        build_models E reenter s
        = Raised e (set_trace (trace s ++ evs)
                      (set_version_class_map vmap' s))
        /\ forallb is_early_event evs = true).
Proof.
  intros Hs. unfold build_models. rewrite bind_gets.
  destruct (pending_classes s) as [|c0 l0] eqn:Hp.
  - left. exists (version_class_map s).
    split; [unfold ret; f_equal; destruct s; same_state|].
    intros c'. now rewrite orb_false_r.
  - destruct (for_each_build_model_for_outcome (c0 :: l0) s Hs)
      as [[vmap' [Hloop Hm]]|[e [vmap' [evs [Hloop Hev]]]]].
    + rewrite (bind_Return _ _ _ _ _ Hloop).
      rewrite run_hook_outcome; [|exact Hs].
      destruct (after_build_models E).
      * left. exists vmap'. split; [f_equal; same_state | exact Hm].
      * left. exists vmap'. split; [f_equal; same_state | exact Hm].
      * right. exists PluginError, vmap',
          (model_events (built_models E (tables s) (c0 :: l0))
           ++ [AfterBuildModels]).
        split; [f_equal; same_state|].
        now rewrite forallb_app, model_events_early.
    + right. exists e, vmap', evs.
      split; [apply bind_Raised; exact Hloop | exact Hev].
Qed.

(** The body of the orchestrator with versioning and [create_models] on,
    entered with the flag up.  Either it raises before the pending list is
    cleared, having added events of table, transaction and model building
    only; or it gets past the clearing, and ends, by returning or by an
    error of a finishing pass, with the events of the pass in phase
    order. *)
Lemma handler_with_models pending tabs vmap tx base rels tr :
  (exists e tabs' vmap' tx' base' evs,
      configure_handler E reenter
        (mkState true true true pending tabs vmap tx base rels tr)
      = Raised e (mkState true true true pending tabs' vmap' tx' base' rels
                    (tr ++ evs))
      /\ forallb is_early_event evs = true)
  \/ (exists tabs' vmap' tx' base' rels' before finishing,
        final_state
          (configure_handler E reenter
             (mkState true true true pending tabs vmap tx base rels tr))
        = Some (mkState true true true [] tabs' vmap' tx' base' rels'
                  (tr ++ before
                   ++ model_events (built_models E tabs' pending)
                   ++ models_notice pending
                   ++ relationship_events E pending
                   ++ finishing))
        /\ forallb is_table_or_tx_event before = true
        /\ forallb is_finishing_event finishing = true
        /\ (forall c, dict_mem c vmap'
                      = dict_mem c vmap
                        || mem c (built_models E tabs' pending))
        /\ (exists s1,
              build_tables E
                (mkState true true true pending tabs vmap tx base rels tr)
              = Return tt s1
              /\ tables s1 = tabs')).
Proof.
  unfold configure_handler. rewrite bind_gets. read_state. cbn [negb].
  destruct (for_each_build_table_for_grows E pending
              (mkState true true true pending tabs vmap tx base rels tr))
    as [s1 [tabs1 [new [evs1 [Hfin1 [Hs1 [_ [_ Hev1]]]]]]]].
  norm_state_in Hs1. subst s1.
  change (for_each pending (build_table_for E)
            (mkState true true true pending tabs vmap tx base rels tr))
    with (build_tables E
            (mkState true true true pending tabs vmap tx base rels tr))
    in Hfin1.
  destruct (build_tables E
              (mkState true true true pending tabs vmap tx base rels tr))
    as [[] s1|e s1|] eqn:Hbt; simpl in Hfin1; try discriminate;
    injection Hfin1 as ->.
  2:{ left. exists e, tabs1, vmap, tx, base, evs1.
      split; [apply bind_Raised; exact Hbt | now apply table_or_tx_early]. }
  rewrite (bind_Return _ _ _ _ _ Hbt).
  destruct (build_transaction_class_outcome
              (mkState true true true pending tabs1 vmap tx base rels
                 (tr ++ evs1)) eq_refl)
    as [tx' [base' [evs2 [Hout2 [Hev2 _]]]]].
  norm_state_in Hout2. destruct Hout2 as [H2|[e H2]].
  2:{ left. exists e, tabs1, vmap, tx', base', (evs1 ++ evs2).
      rewrite (bind_Raised _ _ _ _ _ H2), app_assoc.
      split; [reflexivity|].
      rewrite forallb_app, (table_or_tx_early _ Hev1).
      now apply table_or_tx_early. }
  rewrite (bind_Return _ _ _ _ _ H2), bind_gets. read_state. cbn [negb].
  destruct (build_models_outcome
              (mkState true true true pending tabs1 vmap tx' base' rels
                 ((tr ++ evs1) ++ evs2)) eq_refl)
    as [[vmap' [H3 Hvm]]|[e [vmap' [evs3 [H3 Hev3]]]]];
    norm_state_in H3.
  2:{ left. exists e, tabs1, vmap', tx', base', (evs1 ++ evs2 ++ evs3).
      rewrite (bind_Raised _ _ _ _ _ H3), !app_assoc.
      split; [reflexivity|].
      rewrite !forallb_app, (table_or_tx_early _ Hev1),
        (table_or_tx_early _ Hev2). exact Hev3. }
  norm_state_in Hvm.
  rewrite (bind_Return _ _ _ _ _ H3), bind_gets, bind_modify.
  read_state. unfold set_pending_classes. read_state.
  match goal with
  | |- context [bind (build_relationships E pending) _ ?s3] =>
      destruct (build_relationships_trace E pending s3) as [rels' Hrels]
  end.
  norm_state_in Hrels. rewrite (bind_Return _ _ _ _ _ Hrels).
  match goal with
  | |- context [bind (enable_active_history E pending) _ ?s4] =>
      destruct (finishing_appends E pending s4) as [fin [Hfin Hout5]]
  end.
  norm_state_in Hout5.
  right. exists tabs1, vmap', tx', base', rels', (evs1 ++ evs2), fin.
  split; [|split; [now rewrite forallb_app, Hev1, Hev2|
                   split; [exact Hfin | split; [exact Hvm|]]]].
  - destruct Hout5 as [H5|[e H5]]; rewrite H5; simpl; f_equal; f_equal;
      rewrite <- !app_assoc; reflexivity.
  - eexists. split; reflexivity.
Qed.

(** Table derivation followed by the transaction step: the TableBuilder
    calls recorded are those of table derivation. *)
Lemma tables_and_transaction_table_calls s s' :
  in_handler s = true ->
  (build_tables E ;; build_transaction_class E reenter) s = Return tt s' ->
  exists evs, trace s' = trace s ++ evs
              /\ table_calls evs
                 = filter (derives_table E) (pending_classes s).
Proof.
  intros Hs Hrun. unfold bind in Hrun.
  destruct (build_tables E s) as [[] s1|e s1|] eqn:Hbt; try discriminate.
  unfold build_tables in Hbt. rewrite bind_gets in Hbt.
  destruct (for_each_build_table_for_calls _ _ _ Hbt)
    as [Hflag [evs1 [Htr1 Hc1]]].
  rewrite Hs in Hflag.
  destruct (build_transaction_class_outcome s1 Hflag)
    as [tx' [base' [evs2 [Hout [_ Hc2]]]]].
  destruct Hout as [H2|[e H2]]; rewrite H2 in Hrun; try discriminate.
  injection Hrun as <-. exists (evs1 ++ evs2). simpl.
  rewrite Htr1, <- app_assoc, table_calls_app, Hc1, Hc2, app_nil_r.
  split; reflexivity.
Qed.

End PassOutcomes.

Section PassTheorems.

Context {ShadowTable : Type}.
Variable E : Env ShadowTable.
Implicit Types (s : State ShadowTable) (c : cls).

Lemma late_no_model evs :
  forallb is_late_event evs = true ->
  forallb (fun e => negb (is_model_event e)) evs = true.
Proof. apply forallb_impl. intros e. now destruct e. Qed.

(** The ModelBuilder calls and the per-class notifications of a pass. *)
Lemma added_calls before built pending late :
  forallb is_table_or_tx_event before = true ->
  forallb is_late_event late = true ->
  model_calls (before ++ model_events built ++ models_notice pending ++ late)
  = built
  /\ notified_classes
       (before ++ model_events built ++ models_notice pending ++ late)
     = built.
Proof.
  intros Hbefore Hlate.
  destruct (no_model_event_calls _ (table_or_tx_no_model _ Hbefore))
    as [Hb1 Hb2].
  destruct (no_model_event_calls _ (late_no_model _ Hlate)) as [Hl1 Hl2].
  destruct (no_model_event_calls _ (models_notice_no_model pending))
    as [Hn1 Hn2].
  split.
  - rewrite !model_calls_app, Hb1, Hl1, Hn1, model_calls_model_events.
    simpl. now rewrite app_nil_r.
  - unfold notified_classes in *. rewrite !flat_map_app.
    rewrite Hb2, Hl2, Hn2.
    fold (notified_classes (model_events built)).
    rewrite notified_model_events. simpl. now rewrite app_nil_r.
Qed.

Lemma built_models_In tabs pending c :
  In c (built_models E tabs pending)
  <-> In c pending /\ option_versioning E c = true
      /\ closest_matching_table E tabs c <> None.
Proof.
  unfold built_models. rewrite filter_In, andb_true_iff.
  destruct (closest_matching_table E tabs c); intuition congruence.
Qed.

(** A top-level pass with versioning and [create_models] on, however it
    ends. *)
Lemma pass_with_models_outcome fuel s :
  in_handler s = false ->
  options_versioning s = true ->
  options_create_models s = true ->
  exists s',
    final_state (configure_versioned_classes E (S (S fuel)) s) = Some s'
    /\ ((exists e evs,
           configure_versioned_classes E (S (S fuel)) s = Raised e s'
           /\ pending_classes s' = pending_classes s
           /\ trace s' = trace s ++ evs
           /\ forallb is_early_event evs = true)
        \/ (exists before finishing,
              pending_classes s' = []
              /\ trace s'
                 = trace s ++ before
                   ++ model_events
                        (built_models E (tables s') (pending_classes s))
                   ++ models_notice (pending_classes s)
                   ++ relationship_events E (pending_classes s)
                   ++ finishing
              /\ forallb is_table_or_tx_event before = true
              /\ forallb is_finishing_event finishing = true
              /\ (forall c,
                    dict_mem c (version_class_map s')
                    = dict_mem c (version_class_map s)
                      || mem c (built_models E (tables s')
                                  (pending_classes s)))
              /\ (exists s1,
                    build_tables E (set_in_handler true s) = Return tt s1
                    /\ tables s1 = tables s')
              /\ (configure_versioned_classes E (S (S fuel)) s
                  = Return tt s' ->
                  s' = set_pending_classes []
                         (set_trace (trace s')
                            (set_relationships (relationships s')
                               (set_version_class_map (version_class_map s')
                                  (set_transaction_cls (transaction_cls s')
                                     (set_declarative_base
                                        (declarative_base s')
                                        (set_tables (tables s') s))))))))).
Proof.
  intros Hflag Hv Hcm.
  rewrite (unfold_configure E fuel s Hflag).
  destruct s as [flag v cm pending tabs vmap tx base rels tr].
  norm_state_in Hflag. norm_state_in Hv. norm_state_in Hcm.
  subst flag v cm. norm_state.
  destruct (handler_with_models E (configure_versioned_classes E (S fuel))
              (nested_invocation_returns E fuel)
              pending tabs vmap tx base rels tr)
    as [[e [tabs' [vmap' [tx' [base' [evs [Hrun Hev]]]]]]]
       |[tabs' [vmap' [tx' [base' [rels' [before [finishing
           [Hfin [Hb [Hf [Hvm Hbt]]]]]]]]]]]].
  - rewrite Hrun. eexists. split; [reflexivity|]. left. exists e, evs.
    split; [reflexivity|]. split; [reflexivity|].
    split; [reflexivity | exact Hev].
  - destruct (configure_handler E (configure_versioned_classes E (S fuel))
                (mkState true true true pending tabs vmap tx base rels tr))
      as [[] s1|e s1|]; simpl in Hfin; try discriminate;
      injection Hfin as ->.
    + eexists. split; [reflexivity|]. right. exists before, finishing.
      norm_state.
      split; [reflexivity|]. split; [reflexivity|].
      split; [exact Hb|]. split; [exact Hf|]. split; [exact Hvm|].
      split; [exact Hbt|]. intros _. reflexivity.
    + eexists. split; [reflexivity|]. right. exists before, finishing.
      norm_state.
      split; [reflexivity|]. split; [reflexivity|].
      split; [exact Hb|]. split; [exact Hf|]. split; [exact Hvm|].
      split; [exact Hbt|]. intros H. discriminate.
Qed.

(** C8: a pass with [create_models] off.  Entered at top level with
    versioning on and collaborators that do not raise, the orchestrator
    returns.  Shadow tables are built: TableBuilder has been called, in
    order, for exactly the pending classes that are versioned with table
    creation on, the table map is the one [build_tables] produced, and each
    of these classes has a closest table in it.  A Transaction entity
    exists whenever something was pending.  The pending list is empty, the
    trace has grown by table and transaction events only, and the type map,
    the relationships and everything else are as before: no ModelBuilder,
    RelationshipBuilder or finishing step has run. *)
Theorem pass_without_models fuel s :
  in_handler s = false ->
  options_versioning s = true ->
  options_create_models s = false ->
  (forall c inh, In c (pending_classes s) -> TableBuilder E c inh <> None) ->
  (forall c rest, pending_classes s = c :: rest ->
                  get_declarative_base E c <> None) ->
  after_build_tx_class E <> Fails ->
  exists tabs' tx' base' evs,
    configure_versioned_classes E (S (S fuel)) s
    = Return tt
        (set_pending_classes []
           (set_trace (trace s ++ evs)
              (set_transaction_cls tx'
                 (set_declarative_base base' (set_tables tabs' s)))))
    /\ forallb is_table_or_tx_event evs = true
    /\ (exists s1, build_tables E (set_in_handler true s) = Return tt s1
                   /\ tables s1 = tabs')
    /\ (pending_classes s <> [] -> tx' <> None)
    /\ table_calls evs = filter (derives_table E) (pending_classes s)
    /\ (forall c, In c (pending_classes s) -> derives_table E c = true ->
          exists t, closest_matching_table E tabs' c = Some t).
Proof.
  intros Hflag Hv Hcm Hok Hbase Hhook.
  destruct (tables_and_transaction E fuel (set_in_handler true s))
    as [tabs' [tx' [base' [evs [Hrun [Hev [Htabs Htx]]]]]]]; try assumption.
  { reflexivity. }
  exists tabs', tx', base', evs.
  split; [|split; [exact Hev | split; [exact Htabs | split; [exact Htx|]]]].
  - rewrite (unfold_configure E fuel s Hflag). unfold configure_handler.
    rewrite bind_gets.
    change (options_versioning (set_in_handler true s))
      with (options_versioning s).
    rewrite Hv. cbn [negb].
    unfold bind at 1. unfold bind in Hrun.
    destruct (build_tables E (set_in_handler true s)) as [[] s1|e s1|];
      try discriminate.
    rewrite (bind_Return _ _ _ _ _ Hrun), bind_gets.
    cbn [options_create_models set_trace set_transaction_cls
         set_declarative_base set_tables set_in_handler].
    rewrite Hcm. cbn [negb]. unfold modify. f_equal.
    apply lower_flag_without_models. exact Hflag.
  - split.
    + destruct (tables_and_transaction_table_calls E
                  (configure_versioned_classes E (S fuel))
                  (nested_invocation_returns E fuel)
                  (set_in_handler true s) _ eq_refl Hrun)
        as [evs' [Htr Hcalls]].
      simpl in Htr. apply app_inv_head in Htr. subst evs'. exact Hcalls.
    + destruct Htabs as [s1 [Hbt Hs1]]. intros c Hc Hd. rewrite <- Hs1.
      exact (build_tables_then_closest_table_lemma E
               (set_in_handler true s) s1 Hbt c Hc Hd).
Qed.

(** C9: the order of a pass with [create_models] on, however the pass
    ends.  A top-level invocation with versioning on does not run out of
    fuel, and one of two things holds of the state it leaves.  Either it
    raised before the pending list was cleared: then the pending list is
    the one it started with and it has added to the trace events of table,
    transaction and model building only, no RelationshipBuilder call and no
    finishing event.  Or it got past the clearing: then the pending list is
    empty and what it added to the trace is, in this order, table and
    transaction events; for each class that was pending, is versioned and
    has a closest table, the ModelBuilder call followed at once by that
    class's post-build notification; the models-built notification; and
    after it RelationshipBuilder calls and finishing events only.  So the
    ModelBuilder calls and the per-class notifications of the pass are one
    per built class, each class once when the pending list has no
    duplicate, all of them ahead of the first RelationshipBuilder call, and
    every built class is in the type map.  When the pass returns, what
    follows the models-built notification is the RelationshipBuilder calls
    over the classes that were pending, then finishing events, and nothing
    but the table map, the Transaction entity, the declarative base, the
    type map, the relationships, the trace and the pending list has
    changed. *)
Theorem pass_builds_models_before_relationships fuel s :
  in_handler s = false ->
  options_versioning s = true ->
  options_create_models s = true ->
  exists s',
    final_state (configure_versioned_classes E (S (S fuel)) s) = Some s'
    /\ ((exists e evs,
           configure_versioned_classes E (S (S fuel)) s = Raised e s'
           /\ pending_classes s' = pending_classes s
           /\ trace s' = trace s ++ evs
           /\ forallb is_early_event evs = true)
        \/ (exists before late,
              let built := built_models E (tables s') (pending_classes s) in
              let added := before ++ model_events built
                           ++ models_notice (pending_classes s) ++ late in
              pending_classes s' = []
              /\ trace s' = trace s ++ added
              /\ forallb is_table_or_tx_event before = true
              /\ forallb is_late_event late = true
              /\ model_calls added = built
              /\ notified_classes added = built
              /\ (NoDup (pending_classes s) -> NoDup built)
              /\ (forall c, In c built ->
                            dict_mem c (version_class_map s') = true)
              /\ (configure_versioned_classes E (S (S fuel)) s
                  = Return tt s' ->
                  exists finishing,
                    late = relationship_events E (pending_classes s)
                           ++ finishing
                    /\ forallb is_finishing_event finishing = true
                    /\ s' = set_pending_classes []
                              (set_trace (trace s ++ added)
                                 (set_relationships (relationships s')
                                    (set_version_class_map
                                       (version_class_map s')
                                       (set_transaction_cls
                                          (transaction_cls s')
                                          (set_declarative_base
                                             (declarative_base s')
                                             (set_tables (tables s')
                                                s))))))))).
Proof.
  intros Hflag Hv Hcm.
  destruct (pass_with_models_outcome fuel s Hflag Hv Hcm)
    as [s' [Hfin [Hearly|[before [finishing
         [Hp [Htr [Hb [Hf [Hvm [_ Hret]]]]]]]]]]].
  - exists s'. split; [exact Hfin|]. left. exact Hearly.
  - exists s'. split; [exact Hfin|]. right.
    exists before, (relationship_events E (pending_classes s) ++ finishing).
    cbv zeta.
    assert (Hlate : forallb is_late_event
                      (relationship_events E (pending_classes s)
                       ++ finishing) = true).
    { rewrite forallb_app, relationship_events_late.
      now apply finishing_late. }
    destruct (added_calls before
                (built_models E (tables s') (pending_classes s))
                (pending_classes s) _ Hb Hlate) as [Hcalls Hnotes].
    split; [exact Hp|]. split; [exact Htr|]. split; [exact Hb|].
    split; [exact Hlate|]. split; [exact Hcalls|]. split; [exact Hnotes|].
    split; [apply built_models_NoDup|]. split.
    + intros c Hc. rewrite Hvm. apply mem_In in Hc. rewrite Hc.
      apply orb_true_r.
    + intros Hrun. exists finishing. split; [reflexivity|].
      split; [exact Hf|]. rewrite <- Htr. exact (Hret Hrun).
Qed.

(** X11: which classes a completed pass builds a shadow type for.  When a
    top-level pass with versioning and [create_models] on returns,
    ModelBuilder has been called, and the post-build notification fired,
    for exactly the pending classes that are versioned and for which the
    final table map has a closest table; among them is every pending class
    that is versioned with table creation on, and each of them is then in
    the type map. *)
Theorem pass_builds_every_derived_class fuel s s' :
  in_handler s = false ->
  options_versioning s = true ->
  options_create_models s = true ->
  configure_versioned_classes E (S (S fuel)) s = Return tt s' ->
  exists added,
    trace s' = trace s ++ added
    /\ notified_classes added = model_calls added
    /\ (forall c, In c (model_calls added)
                  <-> In c (pending_classes s)
                      /\ option_versioning E c = true
                      /\ closest_matching_table E (tables s') c <> None)
    /\ (forall c, In c (pending_classes s) -> derives_table E c = true ->
                  In c (model_calls added))
    /\ (forall c, In c (model_calls added) ->
                  dict_mem c (version_class_map s') = true).
Proof.
  intros Hflag Hv Hcm Hrun.
  destruct (pass_with_models_outcome fuel s Hflag Hv Hcm)
    as [s'' [Hfin [[e [evs [Hraised _]]]|[before [finishing
         [Hp [Htr [Hb [Hf [Hvm [[s1 [Hbt Hs1]] _]]]]]]]]]]].
  { rewrite Hrun in Hraised. discriminate. }
  rewrite Hrun in Hfin. injection Hfin as <-.
  assert (Hlate : forallb is_late_event
                    (relationship_events E (pending_classes s)
                     ++ finishing) = true).
  { rewrite forallb_app, relationship_events_late.
    now apply finishing_late. }
  destruct (added_calls before
              (built_models E (tables s') (pending_classes s))
              (pending_classes s) _ Hb Hlate) as [Hcalls Hnotes].
  eexists. split; [exact Htr|]. rewrite Hcalls, Hnotes.
  split; [reflexivity|]. split; [apply built_models_In|]. split.
  - intros c Hc Hd. apply built_models_In. split; [exact Hc|].
    pose proof Hd as Hd'. apply andb_prop in Hd'. split; [apply Hd'|].
    destruct (build_tables_then_closest_table_lemma E
                (set_in_handler true s) s1 Hbt c Hc Hd) as [t Ht].
    rewrite <- Hs1, Ht. discriminate.
  - intros c Hc. rewrite Hvm. apply mem_In in Hc. rewrite Hc.
    apply orb_true_r.
Qed.

End PassTheorems.

Lemma pass_without_models_witness :
  exists s',
    configure_versioned_classes (Blog.env Blog.all Reenters) 2
      (Blog.manager [Blog.Article; Blog.BlogArticle; Blog.User] false)
    = Return tt s'
    /\ pending_classes s' = [] /\ version_class_map s' = []
    /\ forallb is_table_or_tx_event (trace s') = true
    /\ table_calls (trace s') = [Blog.Article; Blog.BlogArticle; Blog.User].
Proof.
  destruct (pass_without_models (Blog.env Blog.all Reenters) 0
              (Blog.manager [Blog.Article; Blog.BlogArticle; Blog.User] false))
    as [tabs' [tx' [base' [evs [Hrun [Hev [_ [_ [Hcalls _]]]]]]]]];
    try reflexivity; try discriminate.
  - intros c inh Hc. simpl in Hc.
    destruct Hc as [<-|[<-|[<-|[]]]]; discriminate.
  - eexists. split; [exact Hrun|]. split; [reflexivity|].
    split; [reflexivity|]. split; [exact Hev | exact Hcalls].
Defined.

Lemma pass_builds_models_before_relationships_witness :
  exists s',
    configure_versioned_classes (Blog.env Blog.all Reenters) 2
      (Blog.manager [Blog.Article; Blog.BlogArticle; Blog.User] true)
    = Return tt s'
    /\ pending_classes s' = []
    /\ model_calls (trace s') = notified_classes (trace s').
Proof.
  eassert (Hrun : configure_versioned_classes (Blog.env Blog.all Reenters) 2
                    (Blog.manager
                       [Blog.Article; Blog.BlogArticle; Blog.User] true)
                  = Return tt _)
    by (vm_compute; reflexivity).
  destruct (pass_builds_models_before_relationships
              (Blog.env Blog.all Reenters) 0
              (Blog.manager [Blog.Article; Blog.BlogArticle; Blog.User] true)
              eq_refl eq_refl eq_refl)
    as [s' [Hfin [[e [evs [Hraised _]]]|[before [late Hlate]]]]].
  - rewrite Hrun in Hraised. discriminate.
  - rewrite Hrun in Hfin. injection Hfin as <-. cbv zeta in Hlate.
    destruct Hlate as [Hp [Htr [_ [_ [Hcalls [Hnotes _]]]]]].
    eexists. split; [exact Hrun|]. split; [exact Hp|].
    rewrite Htr. exact (eq_trans Hcalls (eq_sym Hnotes)).
Defined.

Lemma pass_builds_every_derived_class_witness :
  exists s',
    configure_versioned_classes (Blog.env Blog.all Reenters) 2
      (Blog.manager [Blog.Article; Blog.BlogArticle; Blog.User] true)
    = Return tt s'
    /\ In Blog.BlogArticle (model_calls (trace s')).
Proof.
  eassert (Hrun : configure_versioned_classes (Blog.env Blog.all Reenters) 2
                    (Blog.manager
                       [Blog.Article; Blog.BlogArticle; Blog.User] true)
                  = Return tt _)
    by (vm_compute; reflexivity).
  destruct (pass_builds_every_derived_class (Blog.env Blog.all Reenters) 0
              (Blog.manager [Blog.Article; Blog.BlogArticle; Blog.User] true)
              _ eq_refl eq_refl eq_refl Hrun)
    as [added [Htr [_ [_ [Hall _]]]]].
  eexists. split; [exact Hrun|]. rewrite Htr.
  apply Hall; [simpl; auto | reflexivity].
Defined.
